(** * Teacher dashboard: the result-aggregation and view-derivation pipeline

    A shallow embedding of [src/TeacherDashboard.jsx]: the helpers
    [topIntelligences] and [levelToGrade], the [load] effect, the two
    memoised derivations [latestPerStudent] and [visible], and the data
    the card renderer reads from a record.

    Conventions of the embedding.
    - A JavaScript string is a [string] of code units below 256; on such
      strings [trim] and [toLowerCase] below are the ECMAScript functions.
    - A plain object used as a dictionary is the list of its own
      enumerable properties in creation order ([JsObject]).  A read
      [o[k]] that finds no own property goes on to [Object.prototype]
      ([JsPrototype]), taken as ECMAScript defines it.
    - The embedding follows the code as long as the code writes to its
      own objects only.  A record whose level key names a property of
      [Object.prototype], or whose display name is ["__proto__"], makes
      [latestPerStudent] write to [Object.prototype], to a built-in
      function or to the prototype slot of an object; what the code does
      after such a write is not part of the model ([plainKeys] is the
      condition that excludes it).
    - The number [+new Date(createdAt)] is an integer number of
      milliseconds or NaN ([JsNumber]); scores are integers.
    - [String.prototype.localeCompare] is a parameter of [visible]. *)

From Stdlib Require Import Bool Arith ZArith NArith List Lia.
From Stdlib Require Import Ascii String.
From Stdlib Require Import Permutation Sorted.
From Stdlib Require Import OrdersEx RelationClasses.
From Stdlib Require Import DecimalString.
Import ListNotations.

Local Open Scope string_scope.
Local Open Scope Z_scope.

(* ================================================================== *)
(** ** Strings *)

Module JsString.

(** WhiteSpace and LineTerminator code units below 256:
    TAB, LF, VT, FF, CR, SP, NBSP. *)
Definition isWhiteSpace (c : ascii) : bool :=
  let n := N_of_ascii c in
  (((9 <=? n) && (n <=? 13)) || (n =? 32) || (n =? 160))%N.

Fixpoint trimStart (s : string) : string :=
  match s with
  | EmptyString => EmptyString
  | String c t => if isWhiteSpace c then trimStart t else s
  end.

Fixpoint trimEnd (s : string) : string :=
  match s with
  | EmptyString => EmptyString
  | String c t =>
      match trimEnd t with
      | EmptyString => if isWhiteSpace c then EmptyString else String c EmptyString
      | t' => String c t'
      end
  end.

(** [s.trim()] *)
Definition trim (s : string) : string := trimEnd (trimStart s).

(** Lower-case mapping of one code unit: A-Z, and the Latin-1 capitals
    U+00C0..U+00DE except the multiplication sign U+00D7. *)
Definition lowerUnit (c : ascii) : ascii :=
  let n := N_of_ascii c in
  if (((65 <=? n) && (n <=? 90))
      || ((192 <=? n) && (n <=? 222) && negb (n =? 215)))%N
  then ascii_of_N (n + 32)
  else c.

(** [s.toLowerCase()] *)
Fixpoint toLowerCase (s : string) : string :=
  match s with
  | EmptyString => EmptyString
  | String c t => String (lowerUnit c) (toLowerCase t)
  end.

Fixpoint startsWith (s p : string) {struct p} : bool :=
  match p, s with
  | EmptyString, _ => true
  | String a p', String b s' => Ascii.eqb a b && startsWith s' p'
  | String _ _, EmptyString => false
  end.

(** [s.includes(sub)] *)
Fixpoint includes (s sub : string) : bool :=
  startsWith s sub
  || match s with
     | EmptyString => false
     | String _ t => includes t sub
     end.

(** Truthiness of a string value: only the empty string is falsy. *)
Definition truthy (s : string) : bool := negb (s =? "")%string.

(** [x || fallback] for a possibly missing string property [x]. *)
Definition orElse (x : option string) (fallback : string) : string :=
  match x with
  | Some s => if truthy s then s else fallback
  | None => fallback
  end.

(** A comparator on code units, used to run [visible] on examples. *)
Definition codeUnitCompare (a b : string) : Z :=
  match String_as_OT.compare a b with
  | Lt => -1
  | Eq => 0
  | Gt => 1
  end.

End JsString.

(* ================================================================== *)
(** ** Array.prototype.sort and slice *)

Module JsArray.
Section Sort.
Context {A : Type}.
Variable comparefn : A -> A -> Z.

(** Insert an element that precedes, in the original array, every
    element of the already sorted [l]: it goes before the first
    element it does not compare greater than. *)
Fixpoint insertSorted (x : A) (l : list A) : list A :=
  match l with
  | [] => [x]
  | y :: t => if comparefn x y <=? 0 then x :: y :: t
              else y :: insertSorted x t
  end.

(** [arr.sort(comparefn)]: the stable sort ECMAScript prescribes for a
    consistent comparator. *)
Definition sort (l : list A) : list A := fold_right insertSorted [] l.

End Sort.

(** [arr.slice(0, n)]: a negative [n] counts from the end. *)
Definition slice0 {A : Type} (n : Z) (l : list A) : list A :=
  let len := Z.of_nat (List.length l) in
  let final := if n <? 0 then Z.max (len + n) 0 else Z.min n len in
  firstn (Z.to_nat final) l.

End JsArray.

(* ================================================================== *)
(** ** Plain objects used as dictionaries *)

Module JsObject.

(** Own enumerable string-keyed properties, in creation order. *)
Definition t (V : Type) : Type := list (string * V).

Definition empty {V : Type} : t V := [].

(** [o[k]] on an own property; [None] is [undefined]. *)
Fixpoint getProp {V : Type} (k : string) (o : t V) : option V :=
  match o with
  | [] => None
  | (k', v) :: rest => if (k' =? k)%string then Some v else getProp k rest
  end.

(** [o[k] = v]: an existing property keeps its place, a new one is
    created last. *)
Fixpoint setProp {V : Type} (k : string) (v : V) (o : t V) : t V :=
  match o with
  | [] => [(k, v)]
  | (k', v') :: rest =>
      if (k' =? k)%string then (k', v) :: rest
      else (k', v') :: setProp k v rest
  end.

Definition digit (c : ascii) : option N :=
  let n := N_of_ascii c in
  if ((48 <=? n) && (n <=? 57))%N then Some (n - 48)%N else None.

Fixpoint parseDigits (acc : N) (s : string) : option N :=
  match s with
  | EmptyString => Some acc
  | String c rest =>
      match digit c with
      | Some d => parseDigits (acc * 10 + d)%N rest
      | None => None
      end
  end.

(** A property key is an array index when it is the canonical decimal
    form of an integer in [0, 2^32 - 2]. *)
Definition arrayIndex (k : string) : option N :=
  match k with
  | EmptyString => None
  | String c rest =>
      if (Ascii.eqb c "0"%char && negb (rest =? "")%string)%bool then None
      else match parseDigits 0%N k with
           | Some n => if (n <? 4294967295)%N then Some n else None
           | None => None
           end
  end.

Definition isIndexKey {V : Type} (kv : string * V) : bool :=
  match arrayIndex (fst kv) with Some _ => true | None => false end.

Definition indexOf {V : Type} (kv : string * V) : Z :=
  match arrayIndex (fst kv) with Some n => Z.of_N n | None => 0 end.

(** [Object.entries(o)]: array-index keys in ascending numeric order,
    then the other keys in creation order. *)
Definition entries {V : Type} (o : t V) : list (string * V) :=
  JsArray.sort (fun a b => indexOf a - indexOf b) (filter isIndexKey o)
  ++ filter (fun kv => negb (isIndexKey kv)) o.

(** [Object.keys(o)] *)
Definition keys {V : Type} (o : t V) : list string := map fst (entries o).

End JsObject.

(* ================================================================== *)
(** ** Object.prototype *)

Module JsPrototype.

(** The methods of [Object.prototype]. *)
Definition METHODS : list string :=
  [ "constructor"; "__defineGetter__"; "__defineSetter__"; "hasOwnProperty";
    "__lookupGetter__"; "__lookupSetter__"; "isPrototypeOf";
    "propertyIsEnumerable"; "toString"; "valueOf"; "toLocaleString" ].

(** All its property names: the methods and the accessor [__proto__]. *)
Definition KEYS : list string := (METHODS ++ ["__proto__"])%list.

Definition isMethod (k : string) : bool := existsb (String.eqb k) METHODS.

Definition isKey (k : string) : bool := existsb (String.eqb k) KEYS.

(** What [o[k]] finds on an object created by [{}]: an own property, a
    method of [Object.prototype], the prototype itself (through the
    accessor [__proto__]), or nothing.  Methods and the prototype are
    truthy. *)
Inductive found (V : Type) : Type :=
| Own (v : V)
| Method (k : string)
| Proto
| Undefined.
Arguments Own {V} v.
Arguments Method {V} k.
Arguments Proto {V}.
Arguments Undefined {V}.

Definition get {V : Type} (k : string) (o : JsObject.t V) : found V :=
  match JsObject.getProp k o with
  | Some v => Own v
  | None =>
      if isMethod k then Method k
      else if (k =? "__proto__")%string then Proto
      else Undefined
  end.

End JsPrototype.

(* ================================================================== *)
(** ** Numbers *)

Module JsNumber.

(** The numbers [latestPerStudent] compares: an integer or NaN. *)
Inductive t : Type :=
| Finite (n : Z)
| NaN.

(** [a > b]: false as soon as one side is NaN. *)
Definition gt (a b : t) : bool :=
  match a, b with
  | Finite x, Finite y => y <? x
  | _, _ => false
  end.

End JsNumber.

(* ================================================================== *)
(** ** Data model *)

(** A normalised result document, as [normalizeDoc] returns it: the
    fields the dashboard reads.  A field that may be missing or falsy is
    an [option].  A truthy [createdAt] is what [+new Date(createdAt)]
    makes of it: [At t] for a date of time value [t], [Unparseable] for
    a value that is no date (the number is NaN). *)
Module Doc.
Inductive timestamp : Type :=
| At (time : Z)
| Unparseable.

Record t : Type := mk {
  id : string;
  firstName : option string;
  lastName : option string;
  level : option string;
  scores : option (JsObject.t Z);
  createdAt : option timestamp
}.
End Doc.

(** An element of the [visible] array: [{ level, name, doc }]. *)
Module Entry.
Record t : Type := mk {
  level : string;
  name : string;
  doc : option Doc.t
}.
End Entry.

Definition INTELLIGENCE_KEYS : list string :=
  [ "Linguistic"; "Logical-Mathematical"; "Spatial"; "Kinesthetic";
    "Musical"; "Interpersonal"; "Intrapersonal"; "Naturalistic" ].

Definition LABELS : JsObject.t string :=
  [ ("Linguistic", "Linguistic");
    ("Logical-Mathematical", "Logical/Math");
    ("Spatial", "Spatial");
    ("Kinesthetic", "Kinesthetic");
    ("Musical", "Musical");
    ("Interpersonal", "Interpersonal");
    ("Intrapersonal", "Intrapersonal");
    ("Naturalistic", "Naturalistic") ].

Definition MAX_SCORE : Z := 9.

(* ================================================================== *)
(** ** Helpers *)

(** A value of [LABELS[k] || k]: a string, or the value inherited from
    [Object.prototype] under the key [k] (a built-in function, or the
    prototype itself for [__proto__]). *)
Inductive label : Type :=
| Text (s : string)
| Inherited (k : string).

(** [LABELS[k] || k] *)
Definition labelOf (k : string) : label :=
  match JsPrototype.get k LABELS with
  | JsPrototype.Own l => if JsString.truthy l then Text l else Text k
  | JsPrototype.Method _ | JsPrototype.Proto => Inherited k
  | JsPrototype.Undefined => Text k
  end.

(** [topIntelligences(scores, n)]; [None] is a falsy [scores]. *)
Definition topIntelligences (scores : option (JsObject.t Z)) (n : Z) : list label :=
  match scores with
  | None => []
  | Some o =>
      map (fun kv => labelOf (fst kv))
        (JsArray.slice0 n
           (JsArray.sort (fun a b => snd b - snd a) (JsObject.entries o)))
  end.

(** [levelToGrade(level)]; [None] is a missing level. *)
Definition levelToGrade (level : option string) : string :=
  match level with
  | None => "Unknown"
  | Some l =>
      if negb (JsString.truthy l) then "Unknown"
      else if (l =? "level1")%string then "Grade 9"
      else if (l =? "level2")%string then "Grade 10"
      else if (l =? "level3")%string then "Grade 11"
      else if (l =? "level4")%string then "Grade 12"
      else l
  end.

(* ================================================================== *)
(** ** The [load] effect *)

Module Effect.

(** The component state [load] touches, the [mounted] flag of the
    effect's closure, and what was written to the console. *)
Record View : Type := mkView {
  mounted : bool;
  loading : bool;
  results : list Doc.t;
  consoleErrors : list string
}.

(** How a block of statements completes. *)
Inductive completion (A : Type) : Type :=
| Normal (a : A)
| Return
| Throw (err : string).
Arguments Normal {A} a.
Arguments Return {A}.
Arguments Throw {A} err.

Definition M (A : Type) : Type := View -> completion A * View.

Definition ret {A : Type} (a : A) : M A := fun v => (Normal a, v).

Definition bind {A B : Type} (c : M A) (k : A -> M B) : M B :=
  fun v =>
    match c v with
    | (Normal a, v') => k a v'
    | (Return, v') => (Return, v')
    | (Throw e, v') => (Throw e, v')
    end.

Definition returnEarly {A : Type} : M A := fun v => (Return, v).
Definition throw {A : Type} (err : string) : M A := fun v => (Throw err, v).

(** [try { body } catch (err) { handler } finally { finalizer }] *)
Definition tryCatchFinally {A : Type}
    (body : M A) (handler : string -> M A) (finalizer : M unit) : M A :=
  fun v =>
    let '(c1, v1) :=
      match body v with
      | (Throw e, v') => handler e v'
      | other => other
      end in
    match finalizer v1 with
    | (Normal _, v2) => (c1, v2)
    | (Return, v2) => (Return, v2)
    | (Throw e, v2) => (Throw e, v2)
    end.

Definition getMounted : M bool := fun v => (Normal (mounted v), v).

Definition setLoading (b : bool) : M unit := fun v =>
  (Normal tt, mkView (mounted v) b (results v) (consoleErrors v)).

Definition setResults (docs : list Doc.t) : M unit := fun v =>
  (Normal tt, mkView (mounted v) (loading v) docs (consoleErrors v)).

Definition consoleError (msg err : string) : M unit := fun v =>
  (Normal tt,
   mkView (mounted v) (loading v) (results v)
          (consoleErrors v ++ [(msg ++ " " ++ err)%string])%list).

(** The effect's cleanup: [() => { mounted = false; }] *)
Definition cleanup : M unit := fun v =>
  (Normal tt, mkView false (loading v) (results v) (consoleErrors v)).

(** The suspension point of [load].  [teardown] tells whether the
    cleanup ran while the read was in flight; [fetched] is how
    lines 74-76 end: an error, or the normalised documents. *)
Definition await (teardown : bool) (fetched : string + list Doc.t) : M (list Doc.t) :=
  bind (if teardown then cleanup else ret tt) (fun _ =>
    match fetched with
    | inl err => throw err
    | inr docs => ret docs
    end).

Declare Scope effect_scope.
Delimit Scope effect_scope with effect.
Notation "x <- c ;; k" := (bind c (fun x => k))
  (at level 61, c at next level, right associativity) : effect_scope.
Notation "c ;; k" := (bind c (fun _ => k))
  (at level 61, right associativity) : effect_scope.

(** The state at mount: [useState(true)], [useState([])]. *)
Definition initial : View := mkView true true [] [].

End Effect.

Import Effect.
Local Open Scope effect_scope.

(** [load()] of the mount effect. *)
Definition load (teardown : bool) (fetched : string + list Doc.t) : M unit :=
  setLoading true ;;
  tryCatchFinally
    (docs <- await teardown fetched ;;
     m <- getMounted ;;
     if negb m then returnEarly else setResults docs)
    (fun err =>
       consoleError "Failed to load results:" err ;;
       m <- getMounted ;;
       if negb m then returnEarly else setResults [])
    (m <- getMounted ;;
     if m then setLoading false else ret tt).

(* ================================================================== *)
(** ** latestPerStudent *)

(** [r.level || "unknown"] *)
Definition lvlOf (r : Doc.t) : string :=
  JsString.orElse (Doc.level r) "unknown".

(** [`${r.firstName || ""} ${r.lastName || ""}`.trim() || "(no name)"] *)
Definition nameOf (r : Doc.t) : string :=
  JsString.orElse
    (Some (JsString.trim
             (JsString.orElse (Doc.firstName r) "" ++ " "
              ++ JsString.orElse (Doc.lastName r) "")%string))
    "(no name)".

(** [x.createdAt ? +new Date(x.createdAt) : 0] *)
Definition timeOf (x : Doc.t) : JsNumber.t :=
  match Doc.createdAt x with
  | Some (Doc.At t) => JsNumber.Finite t
  | Some Doc.Unparseable => JsNumber.NaN
  | None => JsNumber.Finite 0
  end.

Definition StudentMap : Type := JsObject.t (JsObject.t Doc.t).

(** [map[lvl] || {}] *)
Definition studentsOf (lvl : string) (map : StudentMap) : JsObject.t Doc.t :=
  match JsObject.getProp lvl map with
  | Some students => students
  | None => JsObject.empty
  end.

(** The body of [results.forEach(r => ...)].  The nested object is
    shared with [map], so storing into it is storing under [map[lvl]].

    [map[lvl][name]] is read through the prototype chain.  When the name
    is a method of [Object.prototype] and no record is stored yet,
    [prev] is that method, [prev.createdAt] is undefined and [prevTime]
    is 0.  When the name is [__proto__], [prev] is the prototype, and
    the assignment, if made, sets the prototype of the nested object: no
    property of it is created.

    [map["__proto__"]] is the accessor: it reads [Object.prototype],
    assigning that back changes nothing, and the record goes to
    [Object.prototype]: [map] gets no property.  For a level key that is
    a method of [Object.prototype], [map[lvl]] becomes that built-in
    function; the model keeps the key and treats its value as a fresh
    object. *)
Definition recordStudent (map : StudentMap) (r : Doc.t) : StudentMap :=
  let lvl := lvlOf r in
  let name := nameOf r in
  if (lvl =? "__proto__")%string then map
  else
    let map1 := JsObject.setProp lvl (studentsOf lvl map) map in
    let stored :=
      JsObject.setProp lvl (JsObject.setProp name r (studentsOf lvl map1)) map1 in
    let curTime := timeOf r in
    match JsPrototype.get name (studentsOf lvl map1) with
    | JsPrototype.Undefined => stored
    | JsPrototype.Own prev =>
        let prevTime := timeOf prev in
        if JsNumber.gt curTime prevTime then stored else map1
    | JsPrototype.Method _ =>
        let prevTime := JsNumber.Finite 0 in
        if JsNumber.gt curTime prevTime then stored else map1
    | JsPrototype.Proto => map1
    end.

Definition latestPerStudent (results : list Doc.t) : StudentMap :=
  fold_left recordStudent results JsObject.empty.

(* ================================================================== *)
(** ** visible *)

Definition FALLBACK_LEVELS : list string := ["level1"; "level2"; "level3"; "level4"].

(** [Object.keys(latestPerStudent).length ? Object.keys(latestPerStudent)
     : ["level1","level2","level3","level4"]] *)
Definition levels (latest : StudentMap) : list string :=
  if (List.length (JsObject.keys latest) =? 0)%nat
  then FALLBACK_LEVELS
  else JsObject.keys latest.

(** The array [arr] before it is sorted. *)
Definition collect (latest : StudentMap) (levelFilter search : string) : list Entry.t :=
  flat_map (fun lvl =>
    if (negb (levelFilter =? "all")%string && negb (lvl =? levelFilter)%string)%bool
    then []
    else
      let students := studentsOf lvl latest in
      flat_map (fun name =>
        if (JsString.truthy search
            && negb (JsString.includes (JsString.toLowerCase name)
                                       (JsString.toLowerCase search)))%bool
        then []
        else [Entry.mk lvl name (JsObject.getProp name students)])
        (JsObject.keys students))
    (levels latest).

Definition visible (localeCompare : string -> string -> Z)
    (latest : StudentMap) (levelFilter search : string) : list Entry.t :=
  JsArray.sort (fun a b => localeCompare (Entry.name a) (Entry.name b))
               (collect latest levelFilter search).

(** The visible entries as a function of the fetched records. *)
Definition visibleEntries (localeCompare : string -> string -> Z)
    (results : list Doc.t) (levelFilter search : string) : list Entry.t :=
  visible localeCompare (latestPerStudent results) levelFilter search.

(* ================================================================== *)
(** ** Store documents and normalizeDoc *)

Module Raw.

(** A field value of a stored document.  [VTimestamp d] is a store
    timestamp whose [toDate()] is the [Date] of time value [d]; it is the
    only value with a [toDate] method.  Numbers are integers. *)
#[warnings="-register-all"]
Inductive value : Type :=
| VNull
| VBool (b : bool)
| VNum (n : Z)
| VStr (s : string)
| VDate (time : Z)
| VTimestamp (toDate : Z)
| VMap (fields : list (string * value)).

(** A document snapshot: [doc.id] and [doc.data()]. *)
Record snapshot : Type := mkSnapshot {
  id : string;
  data : JsObject.t value
}.

(** Truthiness of a value. *)
Definition truthy (v : value) : bool :=
  match v with
  | VNull => false
  | VBool b => b
  | VNum n => negb (n =? 0)
  | VStr s => JsString.truthy s
  | VDate _ | VTimestamp _ | VMap _ => true
  end.

(** [{ ...target, ...source }]: the own properties of [source], in
    enumeration order, defined on [target]. *)
Definition spread {V : Type} (target source : JsObject.t V) : JsObject.t V :=
  fold_left (fun o kv => JsObject.setProp (fst kv) (snd kv) o)
            (JsObject.entries source) target.

End Raw.

(** [normalizeDoc(doc)].  The result is [inl] when the call throws: a
    [createdAt] that is a map with a truthy [toDate] field passes the
    guard, and calling the field is a TypeError. *)
Definition normalizeDoc (doc : Raw.snapshot) : string + JsObject.t Raw.value :=
  let data := Raw.spread [("id", Raw.VStr (Raw.id doc))] (Raw.data doc) in
  match JsObject.getProp "createdAt" data with
  | None => inr data
  | Some createdAt =>
      if Raw.truthy createdAt then
        match createdAt with
        | Raw.VTimestamp d => inr (JsObject.setProp "createdAt" (Raw.VDate d) data)
        | Raw.VMap fields =>
            match JsObject.getProp "toDate" fields with
            | Some f => if Raw.truthy f
                        then inl "TypeError: data.createdAt.toDate is not a function"
                        else inr data
            | None => inr data
            end
        | _ => inr data
        end
      else inr data
  end.

(* ================================================================== *)
(** ** What a card shows *)

(** [const s = item.doc || {}; const scores = s.scores || {};] *)
Definition cardScores (item : Entry.t) : JsObject.t Z :=
  match Entry.doc item with
  | Some s => match Doc.scores s with
              | Some scores => scores
              | None => JsObject.empty
              end
  | None => JsObject.empty
  end.

(** [const top = topIntelligences(scores, 3);] *)
Definition cardTop (item : Entry.t) : list label :=
  topIntelligences (Some (cardScores item)) 3.

(** One row of the bar chart: the label, the width in percent and the
    value printed in the bar. *)
Record BarRow : Type := mkBarRow {
  barKey : string;
  barLabel : label;
  barPct : Z;
  barVal : Z
}.

(** [Math.round((val / MAX_SCORE) * 100)] in exact arithmetic: the
    nearest integer, a half rounding up.  For an integer [val] the
    quotient [100 * val / 9] is never a half. *)
Definition pctOf (val : Z) : Z :=
  (2 * (val * 100) + MAX_SCORE) / (2 * MAX_SCORE).

(** The rows of [INTELLIGENCE_KEYS.map(key => ...)], on a [scores]
    object as it is stored:
    [typeof scores[key] === "number" ? scores[key] : 0]. *)
Definition barRows (scores : JsObject.t Raw.value) : list BarRow :=
  map (fun key =>
         let val := match JsObject.getProp key scores with
                    | Some (Raw.VNum n) => n
                    | _ => 0
                    end in
         mkBarRow key (labelOf key) (pctOf val) val)
      INTELLIGENCE_KEYS.

(** Integer scores as stored values. *)
Definition storedScores (scores : JsObject.t Z) : JsObject.t Raw.value :=
  map (fun kv => (fst kv, Raw.VNum (snd kv))) scores.

(** The bar chart of a card. *)
Definition cardBars (item : Entry.t) : list BarRow :=
  barRows (storedScores (cardScores item)).

(* ================================================================== *)
(** ** Vocabulary of the statements *)

(** [sub] occurs in [s]. *)
Definition occursIn (sub s : string) : Prop :=
  exists pre post : string, s = (pre ++ sub ++ post)%string.

(** The name contains the search text, case-insensitively. *)
Definition matchesSearch (search name : string) : Prop :=
  occursIn (JsString.toLowerCase search) (JsString.toLowerCase name).

(** The records of one (level, name) group, in input order. *)
Definition inGroup (lvl name : string) (r : Doc.t) : bool :=
  ((lvlOf r =? lvl)%string && (nameOf r =? name)%string)%bool.

Definition group (lvl name : string) (results : list Doc.t) : list Doc.t :=
  filter (inGroup lvl name) results.

(** [latestPerStudent[lvl][name]] *)
Definition retained (lvl name : string) (map : StudentMap) : option Doc.t :=
  match JsObject.getProp lvl map with
  | Some students => JsObject.getProp name students
  | None => None
  end.

(** Every (level, name) pair the map enumerates. *)
Definition pairsOf (map : StudentMap) : list (string * string) :=
  flat_map (fun lvl => List.map (fun name => (lvl, name))
                         (JsObject.keys (studentsOf lvl map)))
           (JsObject.keys map).

Definition entryPair (e : Entry.t) : string * string :=
  (Entry.level e, Entry.name e).

(** What one more record of a group does to the record kept so far. *)
Definition keepLatest (kept : option Doc.t) (r : Doc.t) : option Doc.t :=
  match kept with
  | None => Some r
  | Some prev => if JsNumber.gt (timeOf r) (timeOf prev) then Some r else Some prev
  end.

(** The same under a given display name: as long as nothing is stored,
    a method name stores only a record later than the epoch, and
    [__proto__] stores nothing. *)
Definition keepLatestAt (name : string) (kept : option Doc.t) (r : Doc.t) : option Doc.t :=
  match kept with
  | Some prev => if JsNumber.gt (timeOf r) (timeOf prev) then Some r else Some prev
  | None =>
      if JsPrototype.isMethod name
      then (if JsNumber.gt (timeOf r) (JsNumber.Finite 0) then Some r else None)
      else if (name =? "__proto__")%string then None
      else Some r
  end.

(** A key that names no property of [Object.prototype]. *)
Definition plainKey (k : string) : Prop := ~ In k JsPrototype.KEYS.

(** No record has a level key or a display name that names a property
    of [Object.prototype]: the code writes to its own objects only. *)
Definition plainKeys (results : list Doc.t) : Prop :=
  forall r, In r results -> plainKey (lvlOf r) /\ plainKey (nameOf r).

Definition plainKeysb (results : list Doc.t) : bool :=
  forallb (fun r => negb (JsPrototype.isKey (lvlOf r))
                    && negb (JsPrototype.isKey (nameOf r)))%bool
          results.

(** Own keys are pairwise distinct, at both levels of the map. *)
Definition wellKeyed {V : Type} (o : JsObject.t V) : Prop :=
  NoDup (List.map fst o).

Definition wellFormed (map : StudentMap) : Prop :=
  wellKeyed map /\ forall lvl, wellKeyed (studentsOf lvl map).

(** Descending by score. *)
Definition scoreGe (a b : string * Z) : Prop := snd b <= snd a.

(** Ascending by display name under [localeCompare]. *)
Definition nameLe (localeCompare : string -> string -> Z) (a b : Entry.t) : Prop :=
  localeCompare (Entry.name a) (Entry.name b) <= 0.

(** Three students over two levels, entered out of order. *)
Definition sampleResults : list Doc.t :=
  [ Doc.mk "r1" (Some "Zoe") (Some "Young") (Some "level2") None (Some (Doc.At 1700000000000));
    Doc.mk "r2" (Some "amy") (Some "Lee") (Some "level1") None (Some (Doc.At 1700000100000));
    Doc.mk "r3" (Some "Bob") None (Some "level1") None None;
    Doc.mk "r4" (Some "Zoe") (Some "Young") (Some "level2") None (Some (Doc.At 1700000200000)) ].

(* ================================================================== *)
(** ** What the page shows besides the cards *)

(** [key={`${item.level}-${item.name}`}] *)
Definition cardKey (item : Entry.t) : string :=
  (Entry.level item ++ "-" ++ Entry.name item)%string.

(** [String(n)] for an array length. *)
Definition lengthText (n : nat) : string :=
  NilZero.string_of_uint (Nat.to_uint n).

(** [loading ? "Loading..." : `${visible.length} students`] *)
Definition countText (loading : bool) (visible : list Entry.t) : string :=
  if loading then "Loading..."
  else (lengthText (List.length visible) ++ " students")%string.

(** [!loading && visible.length === 0]: the "No students found" line. *)
Definition showsNoStudents (loading : bool) (visible : list Entry.t) : bool :=
  (negb loading && (List.length visible =? 0)%nat)%bool.

(** [levelToGrade(item.level)] on a card. *)
Definition cardGrade (item : Entry.t) : string :=
  levelToGrade (Some (Entry.level item)).

(** The records the cards show: [item.doc] of each visible entry. *)
Definition docsOf (entries : list Entry.t) : list Doc.t :=
  flat_map (fun e => match Entry.doc e with Some r => [r] | None => [] end) entries.

(** The string begins, or ends, with a white-space code unit. *)
Definition startsWithSpace (s : string) : bool :=
  match s with
  | EmptyString => false
  | String c _ => JsString.isWhiteSpace c
  end.

Fixpoint endsWithSpace (s : string) : bool :=
  match s with
  | EmptyString => false
  | String c EmptyString => JsString.isWhiteSpace c
  | String _ t => endsWithSpace t
  end.

(** The comparator of [topIntelligences]. *)
Definition byScoreDesc (a b : string * Z) : Z := snd b - snd a.

(* ================================================================== *)
(** ** Facts about strings *)

Module JsStringFacts.
Import JsString.

Lemma truthy_false_iff (s : string) : truthy s = false <-> s = "".
Proof.
  unfold truthy. rewrite negb_false_iff. apply String.eqb_eq.
Qed.

Lemma truthy_true_iff (s : string) : truthy s = true <-> s <> "".
Proof.
  unfold truthy. rewrite negb_true_iff. apply String.eqb_neq.
Qed.

Lemma startsWith_spec (p s : string) :
  startsWith s p = true <-> exists post, s = (p ++ post)%string.
Proof.
  revert s. induction p as [|a p IH]; intros s; simpl.
  - split; [intros _; now exists s | reflexivity].
  - destruct s as [|b s].
    + split; [discriminate | intros [post H]; discriminate].
    + rewrite andb_true_iff, Ascii.eqb_eq, IH. split.
      * intros [-> [post ->]]. now exists post.
      * intros [post H]. injection H as -> ->. split; [reflexivity | now exists post].
Qed.

Lemma includes_spec (sub s : string) :
  includes s sub = true <-> occursIn sub s.
Proof.
  unfold occursIn. induction s as [|c s IH].
  - simpl. rewrite orb_false_r, startsWith_spec. split.
    + intros [post H]. now exists "", post.
    + intros [pre [post H]]. destruct pre; [now exists post | discriminate].
  - cbn [includes]. rewrite orb_true_iff, startsWith_spec, IH. split.
    + intros [[post H] | [pre [post H]]].
      * now exists "", post.
      * exists (String c pre), post. simpl. now rewrite H.
    + intros [pre [post H]]. destruct pre as [|c' pre].
      * left. now exists post.
      * right. simpl in H. injection H as _ H. now exists pre, post.
Qed.

Lemma codeUnitCompare_pos_iff (a b : string) :
  0 < codeUnitCompare a b <-> String_as_OT.compare a b = Gt.
Proof.
  unfold codeUnitCompare. destruct (String_as_OT.compare a b); split; (lia || congruence).
Qed.

Lemma compare_flip_gt (a b : string) :
  String_as_OT.compare a b = Gt -> String_as_OT.compare b a = Lt.
Proof.
  intros H.
  destruct (String_as_OT.compare_spec a b) as [E|L|G]; try discriminate.
  exact G.
Qed.

Lemma codeUnitCompare_antisym (a b : string) :
  0 < codeUnitCompare a b -> codeUnitCompare b a <= 0.
Proof.
  rewrite codeUnitCompare_pos_iff. intros H%compare_flip_gt.
  unfold codeUnitCompare. now rewrite H.
Qed.

Lemma codeUnitCompare_trans (a b c : string) :
  codeUnitCompare a b <= 0 -> codeUnitCompare b c <= 0 ->
  codeUnitCompare a c <= 0.
Proof.
  unfold codeUnitCompare.
  destruct (String_as_OT.compare_spec a b) as [->|Hab|Hab]; try lia;
    destruct (String_as_OT.compare_spec b c) as [<-|Hbc|Hbc]; try lia; intros _ _.
  - unfold String_as_OT.lt in Hab. rewrite Hab. lia.
  - assert (H : String_as_OT.lt a c) by (etransitivity; eassumption).
    unfold String_as_OT.lt in H. rewrite H. lia.
Qed.

End JsStringFacts.

(* ================================================================== *)
(** ** Facts about sort and slice *)

Module JsArrayFacts.
Import JsArray.

Section SortFacts.
Context {A : Type}.
Variable comparefn : A -> A -> Z.

Lemma insertSorted_perm (x : A) (l : list A) :
  Permutation (insertSorted comparefn x l) (x :: l).
Proof.
  induction l as [|y t IH]; simpl.
  - apply Permutation_refl.
  - destruct (comparefn x y <=? 0).
    + apply Permutation_refl.
    + rewrite IH. apply perm_swap.
Qed.

Lemma sort_perm (l : list A) : Permutation (sort comparefn l) l.
Proof.
  induction l as [|x l IH]; simpl.
  - constructor.
  - rewrite insertSorted_perm. now constructor.
Qed.

Lemma sort_In (l : list A) (x : A) : In x (sort comparefn l) <-> In x l.
Proof.
  split; apply Permutation_in; [|symmetry]; apply sort_perm.
Qed.

Lemma sort_length (l : list A) : List.length (sort comparefn l) = List.length l.
Proof. apply Permutation_length, sort_perm. Qed.

(** A consistent comparator: the sign of [comparefn a b] is opposite
    to that of [comparefn b a], and "not greater" is transitive. *)
Hypothesis comparefn_antisym : forall a b, 0 < comparefn a b -> comparefn b a <= 0.
Hypothesis comparefn_trans :
  forall a b c, comparefn a b <= 0 -> comparefn b c <= 0 -> comparefn a c <= 0.

Let le (a b : A) : Prop := comparefn a b <= 0.

Lemma insertSorted_sorted (x : A) (l : list A) :
  StronglySorted le l -> StronglySorted le (insertSorted comparefn x l).
Proof.
  induction 1 as [|y t Hs IH Hy]; simpl.
  - repeat constructor.
  - destruct (comparefn x y <=? 0) eqn:E.
    + apply Z.leb_le in E. constructor.
      * now constructor.
      * constructor; [exact E|].
        rewrite Forall_forall in Hy |- *. intros z Hz.
        eapply comparefn_trans; [exact E | now apply Hy].
    + apply Z.leb_gt in E. constructor; [exact IH|].
      rewrite Forall_forall in Hy |- *. intros z Hz.
      apply (Permutation_in _ (insertSorted_perm x t)) in Hz.
      destruct Hz as [<- | Hz]; [now apply comparefn_antisym | now apply Hy].
Qed.

Lemma sort_sorted (l : list A) : StronglySorted le (sort comparefn l).
Proof.
  induction l as [|x l IH]; simpl.
  - constructor.
  - now apply insertSorted_sorted.
Qed.

End SortFacts.

Lemma firstn_StronglySorted {A : Type} (R : A -> A -> Prop) (n : nat) (l : list A) :
  StronglySorted R l -> StronglySorted R (firstn n l).
Proof.
  intros H. revert n. induction H as [|x l Hs IH Hx]; intros [|n]; simpl;
    try constructor.
  - apply IH.
  - rewrite Forall_forall in Hx |- *. intros y Hy. apply Hx.
    rewrite <- (firstn_skipn n l). apply in_or_app. now left.
Qed.

Lemma slice0_length {A : Type} (n : Z) (l : list A) :
  0 <= n ->
  (List.length (slice0 n l) <= Z.to_nat n)%nat /\
  (List.length (slice0 n l) <= List.length l)%nat.
Proof.
  intros Hn. unfold slice0.
  destruct (n <? 0) eqn:E; [apply Z.ltb_lt in E; lia|].
  rewrite length_firstn. lia.
Qed.

End JsArrayFacts.

(* ================================================================== *)
(** ** Facts about objects *)

Module JsObjectFacts.
Import JsObject.

Section ObjectFacts.
Context {V : Type}.
Implicit Types (o : t V) (k : string) (v : V).

Lemma getProp_setProp_same k v o : getProp k (setProp k v o) = Some v.
Proof.
  induction o as [|[k' v'] o IH]; simpl.
  - now rewrite String.eqb_refl.
  - destruct (k' =? k)%string eqn:E; simpl; now rewrite E.
Qed.

Lemma getProp_setProp_other k k' v o :
  k <> k' -> getProp k' (setProp k v o) = getProp k' o.
Proof.
  intros Hne. induction o as [|[k0 v0] o IH]; simpl.
  - apply String.eqb_neq in Hne. now rewrite Hne.
  - destruct (k0 =? k)%string eqn:E; simpl.
    + apply String.eqb_eq in E. subst k0.
      apply String.eqb_neq in Hne. now rewrite Hne.
    + now rewrite IH.
Qed.

Lemma getProp_None_iff k o : getProp k o = None <-> ~ In k (map fst o).
Proof.
  induction o as [|[k' v'] o IH]; simpl.
  - tauto.
  - destruct (k' =? k)%string eqn:E.
    + apply String.eqb_eq in E. split; [discriminate | tauto].
    + apply String.eqb_neq in E. rewrite IH. tauto.
Qed.

Lemma getProp_Some_In k v o : getProp k o = Some v -> In (k, v) o.
Proof.
  induction o as [|[k' v'] o IH]; simpl; [discriminate|].
  destruct (k' =? k)%string eqn:E.
  - apply String.eqb_eq in E. intros [= ->]. left. now subst.
  - intros H. right. now apply IH.
Qed.

Lemma setProp_keys k v o :
  map fst (setProp k v o)
  = match getProp k o with
    | Some _ => map fst o
    | None => (map fst o ++ [k])%list
    end.
Proof.
  induction o as [|[k' v'] o IH]; simpl; [reflexivity|].
  destruct (k' =? k)%string eqn:E; simpl; [reflexivity|].
  rewrite IH. now destruct (getProp k o).
Qed.

Lemma setProp_keys_In k k' v o :
  In k' (map fst (setProp k v o)) <-> k' = k \/ In k' (map fst o).
Proof.
  rewrite setProp_keys. destruct (getProp k o) as [v0|] eqn:E.
  - split; [tauto|]. intros [-> | H]; [|exact H].
    apply getProp_Some_In in E. change k with (fst (k, v0)). now apply in_map.
  - rewrite in_app_iff. simpl. intuition congruence.
Qed.

Lemma setProp_wellKeyed k v o : wellKeyed o -> wellKeyed (setProp k v o).
Proof.
  unfold wellKeyed. intros H. rewrite setProp_keys.
  destruct (getProp k o) eqn:E; [exact H|].
  apply getProp_None_iff in E.
  apply (Permutation_NoDup (l := k :: map fst o)).
  - apply Permutation_cons_append.
  - now constructor.
Qed.

(** [Object.entries] lists the own properties, each once. *)
Lemma entries_perm o : Permutation (entries o) o.
Proof.
  unfold entries. rewrite JsArrayFacts.sort_perm.
  induction o as [|kv o IH]; simpl; [constructor|].
  destruct (isIndexKey kv); simpl.
  - now constructor.
  - rewrite <- Permutation_middle. now constructor.
Qed.

Lemma keys_perm o : Permutation (keys o) (map fst o).
Proof. unfold keys. apply Permutation_map, entries_perm. Qed.

Lemma keys_In k o : In k (keys o) <-> In k (map fst o).
Proof. split; apply Permutation_in; [|symmetry]; apply keys_perm. Qed.

Lemma keys_NoDup o : wellKeyed o -> NoDup (keys o).
Proof.
  unfold wellKeyed. intros H.
  eapply Permutation_NoDup; [symmetry; apply keys_perm | exact H].
Qed.

Lemma keys_length o : List.length (keys o) = List.length o.
Proof.
  rewrite (Permutation_length (keys_perm o)). apply length_map.
Qed.

Lemma keys_getProp k o : In k (keys o) <-> getProp k o <> None.
Proof.
  rewrite keys_In. split.
  - intros H E. now apply getProp_None_iff in E.
  - intros H. destruct (in_dec string_dec k (map fst o)) as [i|n]; [exact i|].
    now apply getProp_None_iff in n.
Qed.

End ObjectFacts.
End JsObjectFacts.

(* ================================================================== *)
(** ** Facts about latestPerStudent *)

Module DedupFacts.
Import JsObject JsObjectFacts.

Lemma gt_irrefl (a : JsNumber.t) : JsNumber.gt a a = false.
Proof. destruct a as [x|]; simpl; [apply Z.ltb_irrefl | reflexivity]. Qed.

Lemma gt_finite (a b : JsNumber.t) :
  JsNumber.gt a b = true ->
  exists x y, a = JsNumber.Finite x /\ b = JsNumber.Finite y /\ y < x.
Proof.
  destruct a as [x|], b as [y|]; simpl; try discriminate.
  intros H. apply Z.ltb_lt in H. now exists x, y.
Qed.

Lemma gt_asym (a b : JsNumber.t) :
  JsNumber.gt a b = true -> JsNumber.gt b a = false.
Proof.
  intros H. destruct (gt_finite _ _ H) as (x & y & -> & -> & Hlt).
  simpl. apply Z.ltb_ge. lia.
Qed.

Lemma gt_trans (a b c : JsNumber.t) :
  JsNumber.gt a b = true -> JsNumber.gt b c = true -> JsNumber.gt a c = true.
Proof.
  intros H1 H2.
  destruct (gt_finite _ _ H1) as (x & y & -> & -> & Hxy).
  destruct (gt_finite _ _ H2) as (y' & z & [= <-] & -> & Hyz).
  simpl. apply Z.ltb_lt. lia.
Qed.

(** Below a number that is exceeded: NaN, or exceeded too. *)
Lemma gt_below (a b c : JsNumber.t) :
  JsNumber.gt a b = true -> JsNumber.gt c b = false ->
  c = JsNumber.NaN \/ JsNumber.gt a c = true.
Proof.
  intros H1 H2.
  destruct (gt_finite _ _ H1) as (x & y & -> & -> & Hxy).
  destruct c as [z|]; [right | now left].
  simpl in *. apply Z.ltb_ge in H2. apply Z.ltb_lt. lia.
Qed.

Lemma isKey_false_iff (k : string) : JsPrototype.isKey k = false <-> plainKey k.
Proof.
  unfold JsPrototype.isKey, plainKey.
  rewrite <- not_true_iff_false, existsb_exists. split.
  - intros H Hin. apply H. exists k. split; [exact Hin | apply String.eqb_refl].
  - intros H (x & Hx & E). apply String.eqb_eq in E. now subst x.
Qed.

Lemma plainKey_get {V : Type} (k : string) (o : JsObject.t V) :
  plainKey k ->
  JsPrototype.get k o = match getProp k o with
                        | Some v => JsPrototype.Own v
                        | None => JsPrototype.Undefined
                        end.
Proof.
  intros Hk. unfold JsPrototype.get. destruct (getProp k o); [reflexivity|].
  assert (Hm : JsPrototype.isMethod k = false).
  { unfold JsPrototype.isMethod. rewrite <- not_true_iff_false, existsb_exists.
    intros (x & Hx & E). apply String.eqb_eq in E. subst x.
    apply Hk. unfold JsPrototype.KEYS. apply in_or_app. now left. }
  assert (Hp : (k =? "__proto__")%string = false).
  { apply String.eqb_neq. intros ->. apply Hk.
    unfold JsPrototype.KEYS. apply in_or_app. right. now left. }
  now rewrite Hm, Hp.
Qed.

Lemma plainKey_not_proto (k : string) : plainKey k -> k <> "__proto__".
Proof.
  intros Hk ->. apply Hk. unfold JsPrototype.KEYS. apply in_or_app. right. now left.
Qed.

Lemma plainKeysb_spec (rs : list Doc.t) : plainKeysb rs = true -> plainKeys rs.
Proof.
  unfold plainKeysb, plainKeys. rewrite forallb_forall. intros H r Hr.
  specialize (H r Hr). apply andb_true_iff in H. destruct H as [Hl Hn].
  apply negb_true_iff in Hl, Hn. split; now apply isKey_false_iff.
Qed.

Lemma plainKeys_app (a b : list Doc.t) :
  plainKeys (a ++ b) <-> plainKeys a /\ plainKeys b.
Proof.
  unfold plainKeys. split.
  - intros H. split; intros r Hr; apply H, in_or_app; tauto.
  - intros [Ha Hb] r Hr. apply in_app_or in Hr. destruct Hr; auto.
Qed.

Lemma keepLatestAt_plain (name : string) (kept : option Doc.t) (r : Doc.t) :
  plainKey name -> keepLatestAt name kept r = keepLatest kept r.
Proof.
  intros Hk. unfold keepLatestAt, keepLatest. destruct kept; [reflexivity|].
  pose proof (plainKey_get name (@JsObject.empty Doc.t) Hk) as H.
  unfold JsPrototype.get in H. simpl in H.
  destruct (JsPrototype.isMethod name); [discriminate|].
  destruct (name =? "__proto__")%string; [discriminate | reflexivity].
Qed.

Lemma keepLatestAt_either (name : string) (kept : option Doc.t) (r : Doc.t) :
  keepLatestAt name kept r = kept \/ keepLatestAt name kept r = Some r.
Proof.
  unfold keepLatestAt. destruct kept as [prev|].
  - destruct (JsNumber.gt _ _); tauto.
  - destruct (JsPrototype.isMethod name); [destruct (JsNumber.gt _ _); tauto|].
    destruct (name =? "__proto__")%string; tauto.
Qed.

Lemma keepLatestAt_fold_origin (name : string) (l : list Doc.t)
    (init : option Doc.t) (r : Doc.t) :
  fold_left (keepLatestAt name) l init = Some r -> init = Some r \/ In r l.
Proof.
  revert init. induction l as [|x l IH]; simpl; intros init H; [now left|].
  destruct (IH _ H) as [E | Hin]; [|tauto].
  destruct (keepLatestAt_either name init x) as [E' | E']; rewrite E' in E.
  - now left.
  - injection E as ->. right. now left.
Qed.

Lemma fold_keepLatestAt_plain (name : string) (l : list Doc.t) (init : option Doc.t) :
  plainKey name ->
  fold_left (keepLatestAt name) l init = fold_left keepLatest l init.
Proof.
  intros Hk. revert init. induction l as [|x l IH]; intros init; simpl; [reflexivity|].
  now rewrite IH, keepLatestAt_plain.
Qed.

Lemma retained_studentsOf (lvl name : string) (m : StudentMap) :
  retained lvl name m = getProp name (studentsOf lvl m).
Proof.
  unfold retained, studentsOf. now destruct (getProp lvl m).
Qed.

Lemma studentsOf_setProp_same (lvl : string) (st : JsObject.t Doc.t) (m : StudentMap) :
  studentsOf lvl (setProp lvl st m) = st.
Proof. unfold studentsOf. now rewrite getProp_setProp_same. Qed.

Lemma studentsOf_setProp_other (l lvl : string) (st : JsObject.t Doc.t) (m : StudentMap) :
  l <> lvl -> studentsOf lvl (setProp l st m) = studentsOf lvl m.
Proof. intros H. unfold studentsOf. now rewrite getProp_setProp_other. Qed.

(** The students of a level after one record. *)
Lemma studentsOf_recordStudent (lvl : string) (m : StudentMap) (r : Doc.t) :
  studentsOf lvl (recordStudent m r)
  = if ((lvlOf r =? lvl)%string && negb (lvl =? "__proto__")%string)%bool
    then match JsPrototype.get (nameOf r) (studentsOf lvl m) with
         | JsPrototype.Undefined => setProp (nameOf r) r (studentsOf lvl m)
         | JsPrototype.Own prev =>
             if JsNumber.gt (timeOf r) (timeOf prev)
             then setProp (nameOf r) r (studentsOf lvl m)
             else studentsOf lvl m
         | JsPrototype.Method _ =>
             if JsNumber.gt (timeOf r) (JsNumber.Finite 0)
             then setProp (nameOf r) r (studentsOf lvl m)
             else studentsOf lvl m
         | JsPrototype.Proto => studentsOf lvl m
         end
    else studentsOf lvl m.
Proof.
  unfold recordStudent. cbv zeta.
  destruct (lvlOf r =? "__proto__")%string eqn:Ep.
  - apply String.eqb_eq in Ep.
    destruct (lvlOf r =? lvl)%string eqn:E; [|reflexivity].
    apply String.eqb_eq in E. rewrite <- E, Ep. reflexivity.
  - rewrite studentsOf_setProp_same.
    destruct (lvlOf r =? lvl)%string eqn:E.
    + apply String.eqb_eq in E. subst lvl. rewrite Ep. simpl.
      destruct (JsPrototype.get (nameOf r) (studentsOf (lvlOf r) m)) as [prev|k| |].
      * destruct (JsNumber.gt (timeOf r) (timeOf prev));
          now rewrite studentsOf_setProp_same.
      * destruct (JsNumber.gt (timeOf r) (JsNumber.Finite 0));
          now rewrite studentsOf_setProp_same.
      * now rewrite studentsOf_setProp_same.
      * now rewrite studentsOf_setProp_same.
    + apply String.eqb_neq in E. simpl.
      destruct (JsPrototype.get (nameOf r) (studentsOf (lvlOf r) m)) as [prev|k| |].
      * destruct (JsNumber.gt (timeOf r) (timeOf prev));
          now rewrite ?studentsOf_setProp_other by exact E.
      * destruct (JsNumber.gt (timeOf r) (JsNumber.Finite 0));
          now rewrite ?studentsOf_setProp_other by exact E.
      * now rewrite studentsOf_setProp_other by exact E.
      * now rewrite !studentsOf_setProp_other by exact E.
Qed.

Lemma retained_recordStudent (lvl name : string) (m : StudentMap) (r : Doc.t) :
  retained lvl name (recordStudent m r)
  = if (inGroup lvl name r && negb (lvl =? "__proto__")%string)%bool
    then keepLatestAt name (retained lvl name m) r
    else retained lvl name m.
Proof.
  rewrite !retained_studentsOf, studentsOf_recordStudent. unfold inGroup.
  destruct (lvlOf r =? lvl)%string eqn:El; simpl; [|reflexivity].
  destruct (lvl =? "__proto__")%string eqn:Ep; simpl;
    [now rewrite andb_false_r|].
  destruct (nameOf r =? name)%string eqn:En; simpl.
  - apply String.eqb_eq in En. subst name.
    unfold JsPrototype.get, keepLatestAt.
    destruct (getProp (nameOf r) (studentsOf lvl m)) as [prev|] eqn:Eg.
    + destruct (JsNumber.gt (timeOf r) (timeOf prev));
        [apply getProp_setProp_same | exact Eg].
    + destruct (JsPrototype.isMethod (nameOf r)).
      * destruct (JsNumber.gt (timeOf r) (JsNumber.Finite 0));
          [apply getProp_setProp_same | exact Eg].
      * destruct (nameOf r =? "__proto__")%string;
          [exact Eg | apply getProp_setProp_same].
  - apply String.eqb_neq in En.
    destruct (JsPrototype.get (nameOf r) (studentsOf lvl m)) as [prev|k| |].
    + destruct (JsNumber.gt (timeOf r) (timeOf prev));
        [now apply getProp_setProp_other | reflexivity].
    + destruct (JsNumber.gt (timeOf r) (JsNumber.Finite 0));
        [now apply getProp_setProp_other | reflexivity].
    + reflexivity.
    + now apply getProp_setProp_other.
Qed.

Lemma retained_fold (lvl name : string) (rs : list Doc.t) (m : StudentMap) :
  lvl <> "__proto__" ->
  retained lvl name (fold_left recordStudent rs m)
  = fold_left (keepLatestAt name) (group lvl name rs) (retained lvl name m).
Proof.
  intros Hp. apply String.eqb_neq in Hp.
  revert m. induction rs as [|r rs IH]; intros m; simpl; [reflexivity|].
  rewrite IH, retained_recordStudent, Hp, andb_true_r. unfold group. simpl.
  now destruct (inGroup lvl name r).
Qed.

Lemma retained_proto_level (name : string) (rs : list Doc.t) (m : StudentMap) :
  retained "__proto__" name (fold_left recordStudent rs m)
  = retained "__proto__" name m.
Proof.
  revert m. induction rs as [|r rs IH]; intros m; simpl; [reflexivity|].
  rewrite IH, retained_recordStudent. simpl. now rewrite andb_false_r.
Qed.

(** For plain keys the retained record is [keepLatest] folded over the
    group. *)
Lemma retained_latestPerStudent (lvl name : string) (rs : list Doc.t) :
  plainKey lvl -> plainKey name ->
  retained lvl name (latestPerStudent rs)
  = fold_left keepLatest (group lvl name rs) None.
Proof.
  intros Hl Hn. unfold latestPerStudent.
  rewrite retained_fold by now apply plainKey_not_proto.
  now apply fold_keepLatestAt_plain.
Qed.

Lemma retained_append (lvl name : string) (rs more : list Doc.t) :
  plainKey lvl -> plainKey name ->
  retained lvl name (latestPerStudent (rs ++ more))
  = fold_left keepLatest (group lvl name more)
              (retained lvl name (latestPerStudent rs)).
Proof.
  intros Hl Hn. unfold latestPerStudent. rewrite fold_left_app.
  rewrite retained_fold by now apply plainKey_not_proto.
  now apply fold_keepLatestAt_plain.
Qed.

(** Folding [keepLatest] over a non-empty run keeps one of its records:
    every record after it is not later than it, and every record before
    it is earlier than it or has no comparable time. *)
Lemma keepLatest_fold_some (l : list Doc.t) (p : Doc.t) :
  exists r pre post,
    fold_left keepLatest l (Some p) = Some r /\
    p :: l = (pre ++ r :: post)%list /\
    (forall x, In x pre ->
               timeOf x = JsNumber.NaN \/ JsNumber.gt (timeOf r) (timeOf x) = true) /\
    (forall x, In x post -> JsNumber.gt (timeOf x) (timeOf r) = false).
Proof.
  induction l as [|x l IH] using rev_ind.
  - exists p, [], []. simpl.
    split; [reflexivity | split; [reflexivity | split; intros ? []]].
  - destruct IH as (r & pre & post & Hf & Hl & Hpre & Hpost).
    rewrite fold_left_app, Hf. simpl.
    destruct (JsNumber.gt (timeOf x) (timeOf r)) eqn:E.
    + exists x, (p :: l), [].
      split; [reflexivity | split; [reflexivity | split]].
      * intros y Hy. rewrite Hl in Hy. apply in_app_or in Hy.
        destruct Hy as [Hy | [<- | Hy]].
        -- destruct (Hpre _ Hy) as [Hn | Hg]; [now left | right].
           now apply gt_trans with (timeOf r).
        -- now right.
        -- apply gt_below with (timeOf r); [exact E | now apply Hpost].
      * intros ? [].
    + exists r, pre, (post ++ [x])%list.
      split; [reflexivity | split; [|split]].
      * change (p :: l ++ [x])%list with ((p :: l) ++ [x])%list.
        rewrite Hl, <- app_assoc. reflexivity.
      * exact Hpre.
      * intros y Hy. apply in_app_or in Hy.
        destruct Hy as [Hy | [<- | []]]; [now apply Hpost | exact E].
Qed.

Lemma keepLatest_fold (l : list Doc.t) :
  match fold_left keepLatest l None with
  | None => l = []
  | Some r =>
      exists pre post,
        l = (pre ++ r :: post)%list /\
        (forall x, In x pre ->
                   timeOf x = JsNumber.NaN \/ JsNumber.gt (timeOf r) (timeOf x) = true) /\
        (forall x, In x post -> JsNumber.gt (timeOf x) (timeOf r) = false)
  end.
Proof.
  destruct l as [|p l]; simpl; [reflexivity|].
  destruct (keepLatest_fold_some l p) as (r & pre & post & Hf & Hl & H).
  rewrite Hf. now exists pre, post.
Qed.

(** No record of the run is later than the one kept. *)
Lemma keepLatest_fold_max (l : list Doc.t) (r x : Doc.t) :
  fold_left keepLatest l None = Some r -> In x l ->
  JsNumber.gt (timeOf x) (timeOf r) = false.
Proof.
  intros Hf Hx. pose proof (keepLatest_fold l) as H. rewrite Hf in H.
  destruct H as (pre & post & -> & Hpre & Hpost).
  apply in_app_or in Hx. destruct Hx as [Hx | [<- | Hx]].
  - destruct (Hpre _ Hx) as [Hn | Hg]; [now rewrite Hn | now apply gt_asym].
  - apply gt_irrefl.
  - now apply Hpost.
Qed.

Lemma group_In (lvl name : string) (rs : list Doc.t) (r : Doc.t) :
  In r (group lvl name rs) <-> In r rs /\ lvlOf r = lvl /\ nameOf r = name.
Proof.
  unfold group, inGroup.
  now rewrite filter_In, andb_true_iff, !String.eqb_eq.
Qed.

(** A retained record is a record of the input, stored under its own
    level key and display name. *)
Lemma retained_In (lvl name : string) (rs : list Doc.t) (r : Doc.t) :
  retained lvl name (latestPerStudent rs) = Some r ->
  In r rs /\ lvlOf r = lvl /\ nameOf r = name.
Proof.
  unfold latestPerStudent. intros H.
  destruct (string_dec lvl "__proto__") as [-> | Hp].
  - rewrite retained_proto_level in H. discriminate.
  - rewrite retained_fold in H by exact Hp.
    apply keepLatestAt_fold_origin in H. destruct H as [H | H]; [discriminate|].
    now apply group_In.
Qed.

Lemma retained_None_iff (lvl name : string) (rs : list Doc.t) :
  plainKey lvl -> plainKey name ->
  retained lvl name (latestPerStudent rs) = None <-> group lvl name rs = [].
Proof.
  intros Hl Hn. rewrite retained_latestPerStudent by assumption.
  pose proof (keepLatest_fold (group lvl name rs)) as H.
  destruct (fold_left keepLatest (group lvl name rs) None) as [r|] eqn:E.
  - destruct H as (pre & post & Hg & _). split; [discriminate|].
    rewrite Hg. intros H0. now destruct pre.
  - tauto.
Qed.

(** *** The shape of the map *)

Lemma recordStudent_levels (lvl : string) (m : StudentMap) (r : Doc.t) :
  In lvl (map fst (recordStudent m r))
  <-> (lvl = lvlOf r /\ lvl <> "__proto__") \/ In lvl (map fst m).
Proof.
  unfold recordStudent. cbv zeta.
  destruct (lvlOf r =? "__proto__")%string eqn:Ep.
  - apply String.eqb_eq in Ep. split; [tauto|]. intros [[H1 H2] | H]; [|exact H].
    congruence.
  - apply String.eqb_neq in Ep.
    assert (Hiff : (lvl = lvlOf r \/ In lvl (map fst m))
                   <-> ((lvl = lvlOf r /\ lvl <> "__proto__") \/ In lvl (map fst m))).
    { split; [|tauto]. intros [-> | H]; tauto. }
    destruct (JsPrototype.get (nameOf r) _) as [prev|k| |];
      [destruct (JsNumber.gt (timeOf r) (timeOf prev))
      |destruct (JsNumber.gt (timeOf r) (JsNumber.Finite 0))| |];
      rewrite ?setProp_keys_In; tauto.
Qed.

Lemma fold_recordStudent_levels (lvl : string) (rs : list Doc.t) (m : StudentMap) :
  In lvl (map fst (fold_left recordStudent rs m))
  <-> In lvl (map fst m)
      \/ (lvl <> "__proto__" /\ exists r, In r rs /\ lvlOf r = lvl).
Proof.
  revert m. induction rs as [|r rs IH]; intros m; simpl.
  - split; [tauto | intros [H | (_ & r & [] & _)]; exact H].
  - rewrite IH, recordStudent_levels. split.
    + intros [[[-> Hp] | H] | (Hp & x & Hx & E)].
      * right. split; [exact Hp|]. exists r. tauto.
      * now left.
      * right. split; [exact Hp|]. exists x. tauto.
    + intros [H | (Hp & x & [<- | Hx] & E)].
      * tauto.
      * left. left. split; [now symmetry | exact Hp].
      * right. split; [exact Hp|]. now exists x.
Qed.

Lemma latestPerStudent_levels (lvl : string) (rs : list Doc.t) :
  In lvl (keys (latestPerStudent rs))
  <-> lvl <> "__proto__" /\ exists r, In r rs /\ lvlOf r = lvl.
Proof.
  rewrite keys_In. unfold latestPerStudent.
  rewrite fold_recordStudent_levels. simpl. tauto.
Qed.

Lemma recordStudent_wellFormed (m : StudentMap) (r : Doc.t) :
  wellFormed m -> wellFormed (recordStudent m r).
Proof.
  intros [Hm Hs]. split.
  - unfold recordStudent. cbv zeta.
    destruct (lvlOf r =? "__proto__")%string; [exact Hm|].
    destruct (JsPrototype.get (nameOf r) _) as [prev|k| |];
      [destruct (JsNumber.gt (timeOf r) (timeOf prev))
      |destruct (JsNumber.gt (timeOf r) (JsNumber.Finite 0))| |];
      repeat apply setProp_wellKeyed; exact Hm.
  - intros lvl. rewrite studentsOf_recordStudent.
    destruct ((lvlOf r =? lvl)%string && negb (lvl =? "__proto__")%string)%bool;
      [|apply Hs].
    destruct (JsPrototype.get (nameOf r) (studentsOf lvl m)) as [prev|k| |];
      [destruct (JsNumber.gt (timeOf r) (timeOf prev))
      |destruct (JsNumber.gt (timeOf r) (JsNumber.Finite 0))| |];
      try apply setProp_wellKeyed; apply Hs.
Qed.

Lemma latestPerStudent_wellFormed (rs : list Doc.t) :
  wellFormed (latestPerStudent rs).
Proof.
  unfold latestPerStudent.
  assert (H : wellFormed (@JsObject.empty (JsObject.t Doc.t))).
  { split; [constructor | intros lvl; constructor]. }
  revert H. generalize (@JsObject.empty (JsObject.t Doc.t)).
  induction rs as [|r rs IH]; intros m Hm; simpl; [exact Hm|].
  apply IH. now apply recordStudent_wellFormed.
Qed.

Lemma retained_level (lvl name : string) (m : StudentMap) :
  retained lvl name m <> None -> In lvl (keys m).
Proof.
  unfold retained. intros H. apply keys_getProp.
  now destruct (getProp lvl m).
Qed.

End DedupFacts.

(* ================================================================== *)
(** ** Facts about visible *)

Module VisibleFacts.
Import JsObject JsObjectFacts DedupFacts.

Lemma map_flat_map {A B C : Type} (g : B -> C) (f : A -> list B) (l : list A) :
  map g (flat_map f l) = flat_map (fun a => map g (f a)) l.
Proof.
  induction l as [|a l IH]; simpl; [reflexivity|].
  now rewrite map_app, IH.
Qed.

(** Lists that are duplicate-free and pairwise disjoint concatenate
    to a duplicate-free list. *)
Lemma NoDup_flat_map {A B : Type} (f : A -> list B) (l : list A) :
  NoDup l ->
  (forall a, In a l -> NoDup (f a)) ->
  (forall a b x, In a l -> In b l -> In x (f a) -> In x (f b) -> a = b) ->
  NoDup (flat_map f l).
Proof.
  induction 1 as [|a l Ha Hl IH]; intros Hf Hd; simpl; [constructor|].
  apply NoDup_app.
  - apply Hf. now left.
  - apply IH.
    + intros b Hb. apply Hf. now right.
    + intros b c x Hb Hc. apply Hd; now right.
  - intros x Hx Hx'. apply in_flat_map in Hx'. destruct Hx' as (b & Hb & Hxb).
    apply Ha. rewrite (Hd a b x); auto; [now left | now right].
Qed.

Lemma levels_NoDup (m : StudentMap) : wellFormed m -> NoDup (levels m).
Proof.
  intros [Hm _]. unfold levels.
  destruct (List.length (keys m) =? 0)%nat.
  - unfold FALLBACK_LEVELS.
    repeat (constructor; [simpl; intuition discriminate|]). constructor.
  - now apply keys_NoDup.
Qed.

(** What it takes for an entry to be collected. *)
Lemma collect_In (m : StudentMap) (levelFilter search : string) (e : Entry.t) :
  In e (collect m levelFilter search) <->
    In (Entry.level e) (levels m) /\
    (levelFilter = "all" \/ Entry.level e = levelFilter) /\
    In (Entry.name e) (keys (studentsOf (Entry.level e) m)) /\
    (search = "" \/ matchesSearch search (Entry.name e)) /\
    Entry.doc e = retained (Entry.level e) (Entry.name e) m.
Proof.
  unfold collect. rewrite in_flat_map. split.
  - intros (lvl & Hlvl & He).
    destruct (negb (levelFilter =? "all")%string && negb (lvl =? levelFilter)%string)%bool
      eqn:Ef; [destruct He|].
    apply in_flat_map in He. destruct He as (name & Hname & He).
    destruct (JsString.truthy search && _)%bool eqn:Es; [destruct He|].
    destruct He as [<- | []]. simpl.
    split; [exact Hlvl|]. split; [|split; [exact Hname|split]].
    + apply andb_false_iff in Ef. rewrite !negb_false_iff, !String.eqb_eq in Ef.
      tauto.
    + apply andb_false_iff in Es.
      rewrite JsStringFacts.truthy_false_iff, negb_false_iff in Es.
      destruct Es as [Es | Es]; [now left | right].
      now apply JsStringFacts.includes_spec.
    + now rewrite retained_studentsOf.
  - intros (Hlvl & Hf & Hname & Hs & Hdoc).
    exists (Entry.level e). split; [exact Hlvl|].
    replace (negb (levelFilter =? "all")%string
             && negb (Entry.level e =? levelFilter)%string)%bool with false.
    2:{ symmetry. apply andb_false_iff. rewrite !negb_false_iff, !String.eqb_eq.
        tauto. }
    apply in_flat_map. exists (Entry.name e). split; [exact Hname|].
    replace (JsString.truthy search
             && negb (JsString.includes (JsString.toLowerCase (Entry.name e))
                                        (JsString.toLowerCase search)))%bool
      with false.
    2:{ symmetry. apply andb_false_iff.
        rewrite JsStringFacts.truthy_false_iff, negb_false_iff.
        destruct Hs as [Hs | Hs]; [now left | right].
        now apply JsStringFacts.includes_spec. }
    left. rewrite <- retained_studentsOf, <- Hdoc. now destruct e.
Qed.

Lemma collect_pairs_NoDup (m : StudentMap) (levelFilter search : string) :
  wellFormed m -> NoDup (map entryPair (collect m levelFilter search)).
Proof.
  intros Hwf. unfold collect. rewrite map_flat_map.
  apply NoDup_flat_map.
  - now apply levels_NoDup.
  - intros lvl _.
    destruct (negb _ && negb _)%bool; [constructor|].
    rewrite map_flat_map. apply NoDup_flat_map.
    + apply keys_NoDup, Hwf.
    + intros name _. destruct (JsString.truthy search && _)%bool;
        simpl; repeat constructor; intros [].
    + intros a b x _ _ Ha Hb.
      destruct (JsString.truthy search && negb (JsString.includes (JsString.toLowerCase a) _))%bool;
        [destruct Ha|].
      destruct (JsString.truthy search && negb (JsString.includes (JsString.toLowerCase b) _))%bool;
        [destruct Hb|].
      destruct Ha as [<- | []]. destruct Hb as [[=] | []]. congruence.
  - intros a b x _ _ Ha Hb.
    destruct (negb (levelFilter =? "all")%string && negb (a =? levelFilter)%string)%bool;
      [destruct Ha|].
    destruct (negb (levelFilter =? "all")%string && negb (b =? levelFilter)%string)%bool;
      [destruct Hb|].
    rewrite map_flat_map in Ha, Hb.
    apply in_flat_map in Ha, Hb.
    destruct Ha as (na & _ & Ha). destruct Hb as (nb & _ & Hb).
    destruct (JsString.truthy search && negb (JsString.includes (JsString.toLowerCase na) _))%bool;
      [destruct Ha|].
    destruct (JsString.truthy search && negb (JsString.includes (JsString.toLowerCase nb) _))%bool;
      [destruct Hb|].
    destruct Ha as [<- | []]. destruct Hb as [[=] | []]. congruence.
Qed.

Lemma visible_perm (localeCompare : string -> string -> Z)
    (m : StudentMap) (levelFilter search : string) :
  Permutation (visible localeCompare m levelFilter search)
              (collect m levelFilter search).
Proof. apply JsArrayFacts.sort_perm. Qed.

Lemma visible_In (localeCompare : string -> string -> Z)
    (m : StudentMap) (levelFilter search : string) (e : Entry.t) :
  In e (visible localeCompare m levelFilter search)
  <-> In e (collect m levelFilter search).
Proof. apply JsArrayFacts.sort_In. Qed.

End VisibleFacts.

(* ================================================================== *)
(** ** Enumerating the retained pairs *)

Module PairFacts.
Import JsObject JsObjectFacts DedupFacts VisibleFacts.

Lemma pairsOf_In (lvl name : string) (m : StudentMap) :
  In (lvl, name) (pairsOf m) <-> retained lvl name m <> None.
Proof.
  unfold pairsOf. rewrite in_flat_map. split.
  - intros (l & _ & H). apply in_map_iff in H.
    destruct H as (n & [= -> ->] & Hn).
    rewrite retained_studentsOf. now apply keys_getProp.
  - intros H. exists lvl. split; [now apply retained_level with name|].
    apply in_map. apply keys_getProp. now rewrite <- retained_studentsOf.
Qed.

Lemma pairsOf_NoDup (m : StudentMap) : wellFormed m -> NoDup (pairsOf m).
Proof.
  intros [Hm Hs]. unfold pairsOf. apply NoDup_flat_map.
  - now apply keys_NoDup.
  - intros lvl _. apply NoDup_map_NoDup_ForallPairs.
    + intros a b _ _ [=]. assumption.
    + apply keys_NoDup, Hs.
  - intros a b [l n] _ _ Ha Hb.
    apply in_map_iff in Ha, Hb.
    destruct Ha as (? & [= <- _] & _). destruct Hb as (? & [= <- _] & _).
    reflexivity.
Qed.

End PairFacts.

(* ================================================================== *)
(** ** The properties of the pipeline *)

Import JsObject.

(** C1, where the code departs from it.  A record whose display name is
    a method of [Object.prototype] and whose [createdAt] is missing is
    never stored: the nested object inherits the method, the code takes
    it for a record already kept, compares 0 with 0 and keeps nothing,
    so the pair of that record has no retained record at all.  The same
    record with a date later than the epoch is stored.  And a record
    whose [createdAt] is no date stays once it is kept: a later record
    of the group with a valid date does not replace it, so the retained
    record is not the latest of its group. *)
Theorem latestPerStudent_inherited_name :
  let p := Doc.mk "p" (Some "constructor") None (Some "level1") None None in
  let q := Doc.mk "q" (Some "constructor") None (Some "level1") None
                  (Some (Doc.At 1700000000000)) in
  let a := Doc.mk "a" (Some "Amy") (Some "Lee") (Some "level1") None
                  (Some Doc.Unparseable) in
  let b := Doc.mk "b" (Some "Amy") (Some "Lee") (Some "level1") None
                  (Some (Doc.At 1700000000000)) in
  group "level1" "constructor" [p] = [p] /\
  retained "level1" "constructor" (latestPerStudent [p]) = None /\
  pairsOf (latestPerStudent [p]) = [] /\
  retained "level1" "constructor" (latestPerStudent [q]) = Some q /\
  group "level1" "Amy Lee" [a; b] = [a; b] /\
  retained "level1" "Amy Lee" (latestPerStudent [a; b]) = Some a.
Proof.
  cbv zeta. split; [reflexivity|]. split; [reflexivity|].
  split; [reflexivity|]. split; [reflexivity|]. split; reflexivity.
Qed.

(** X21: for every sequence of records whose level keys and display
    names name no property of [Object.prototype], [latestPerStudent]
    retains exactly one record per distinct (level, display name) pair
    of the input, where the level is ["unknown"] when missing and the
    display name is the trimmed [firstName ++ " " ++ lastName], or
    ["(no name)"] when that is empty.  The retained record belongs to
    the group; no record of the group compares later than it, where a
    missing [createdAt] counts as 0 and one that is no date as NaN; and
    every record of the group before it is strictly earlier or has no
    date: among equal timestamps the first seen is kept. *)
Theorem latestPerStudent_keeps_latest (results : list Doc.t) :
  plainKeys results ->
  let latest := latestPerStudent results in
  (forall r, lvlOf r = JsString.orElse (Doc.level r) "unknown") /\
  (forall r,
      let full := JsString.trim (JsString.orElse (Doc.firstName r) "" ++ " "
                                 ++ JsString.orElse (Doc.lastName r) "")%string in
      nameOf r = if (full =? "")%string then "(no name)" else full) /\
  (forall r,
      timeOf r = match Doc.createdAt r with
                 | Some (Doc.At t) => JsNumber.Finite t
                 | Some Doc.Unparseable => JsNumber.NaN
                 | None => JsNumber.Finite 0
                 end) /\
  NoDup (pairsOf latest) /\
  (forall lvl name,
      In (lvl, name) (pairsOf latest)
      <-> exists r, In r results /\ lvlOf r = lvl /\ nameOf r = name) /\
  (forall lvl name,
      match retained lvl name latest with
      | None => group lvl name results = []
      | Some r =>
          exists pre post,
            group lvl name results = (pre ++ r :: post)%list /\
            (forall x, In x pre ->
                       timeOf x = JsNumber.NaN
                       \/ JsNumber.gt (timeOf r) (timeOf x) = true) /\
            (forall x, In x post -> JsNumber.gt (timeOf x) (timeOf r) = false)
      end).
Proof.
  intros Hplain. cbv zeta.
  assert (Hnone : forall lvl name,
             retained lvl name (latestPerStudent results) = None ->
             group lvl name results = []).
  { intros lvl name E.
    destruct (group lvl name results) as [|x g] eqn:Eg; [reflexivity|].
    assert (Hx : In x (group lvl name results)) by (rewrite Eg; now left).
    apply DedupFacts.group_In in Hx. destruct Hx as (Hx & <- & <-).
    destruct (Hplain x Hx) as [Hl Hn].
    apply (DedupFacts.retained_None_iff _ _ results Hl Hn) in E.
    rewrite E in Eg. discriminate. }
  split; [reflexivity|]. split; [|split; [reflexivity|split; [|split]]].
  - intros r. unfold nameOf, JsString.orElse at 1, JsString.truthy.
    now destruct (_ =? "")%string.
  - apply PairFacts.pairsOf_NoDup, DedupFacts.latestPerStudent_wellFormed.
  - intros lvl name. rewrite PairFacts.pairsOf_In. split.
    + intros H.
      destruct (retained lvl name (latestPerStudent results)) as [r|] eqn:E;
        [|congruence].
      exists r. now apply DedupFacts.retained_In.
    + intros (r & Hr) E. apply Hnone in E.
      apply DedupFacts.group_In in Hr. rewrite E in Hr. destruct Hr.
  - intros lvl name.
    destruct (retained lvl name (latestPerStudent results)) as [r|] eqn:E;
      [|now apply Hnone].
    pose proof (DedupFacts.retained_In _ _ _ _ E) as (Hr & Hl & Hn).
    destruct (Hplain r Hr) as [Hpl Hpn]. rewrite Hl in Hpl. rewrite Hn in Hpn.
    rewrite (DedupFacts.retained_latestPerStudent _ _ results Hpl Hpn) in E.
    pose proof (DedupFacts.keepLatest_fold (group lvl name results)) as H.
    now rewrite E in H.
Qed.

Lemma latestPerStudent_keeps_latest_witness :
  NoDup (pairsOf (latestPerStudent sampleResults)) /\
  (In ("level2", "Zoe Young") (pairsOf (latestPerStudent sampleResults))
   <-> exists r, In r sampleResults /\ lvlOf r = "level2" /\ nameOf r = "Zoe Young").
Proof.
  destruct (latestPerStudent_keeps_latest sampleResults
              (DedupFacts.plainKeysb_spec sampleResults eq_refl))
    as (_ & _ & _ & Hnd & Hin & _).
  split; [exact Hnd | apply Hin].
Defined.

(** The scenario of the specification: two records of "Amy Lee" at
    level1, of day 1 and day 2, resolve to the day-2 record. *)
Example latestPerStudent_amy_lee :
  let day1 := Doc.mk "a" (Some "Amy") (Some "Lee") (Some "level1") None
                     (Some (Doc.At 86400000)) in
  let day2 := Doc.mk "b" (Some "Amy") (Some "Lee") (Some "level1") None
                     (Some (Doc.At 172800000)) in
  retained "level1" "Amy Lee" (latestPerStudent [day1; day2]) = Some day2 /\
  retained "level1" "Amy Lee" (latestPerStudent [day2; day1]) = Some day2.
Proof. split; reflexivity. Qed.

(** The model on small inputs. *)
Example strings_sample :
  JsString.trim "  Amy Lee  " = "Amy Lee" /\
  JsString.toLowerCase "Amy LEE" = "amy lee" /\
  JsString.includes "amy lee" "y l" = true /\
  JsString.includes "amy lee" "bob" = false.
Proof. repeat split. Qed.

Example keys_order :
  keys [("b", 1); ("10", 2); ("2", 3); ("a", 4); ("01", 5)]
  = ["2"; "10"; "b"; "a"; "01"].
Proof. reflexivity. Qed.

Example nameOf_sample :
  nameOf (Doc.mk "a" (Some " Amy") (Some "Lee ") None None None) = "Amy Lee" /\
  nameOf (Doc.mk "b" None (Some "") None None None) = "(no name)" /\
  lvlOf (Doc.mk "b" None None (Some "") None None) = "unknown".
Proof. repeat split. Qed.

Example pctOf_sample :
  map pctOf [0; 1; 2; 3; 4; 5; 6; 7; 8; 9]
  = [0; 11; 22; 33; 44; 56; 67; 78; 89; 100].
Proof. reflexivity. Qed.

(** C2: for every sequence of records, every level filter and every
    search text, each visible entry passes both filters: the level
    filter is ["all"] or equals the entry's level, and the search text is
    empty or occurs, case-insensitively, in the entry's display name. *)
Theorem visibleEntries_pass_filters
    (localeCompare : string -> string -> Z)
    (results : list Doc.t) (levelFilter search : string) :
  Forall (fun e =>
            (levelFilter = "all" \/ Entry.level e = levelFilter) /\
            (search = "" \/ matchesSearch search (Entry.name e)))
         (visibleEntries localeCompare results levelFilter search).
Proof.
  apply Forall_forall. intros e He.
  apply VisibleFacts.visible_In, VisibleFacts.collect_In in He. tauto.
Qed.

Section SortedByName.
Variable localeCompare : string -> string -> Z.

(** [localeCompare] is a consistent comparator: if [a] sorts after [b]
    then [b] does not sort after [a], and "does not sort after" is
    transitive. *)
Hypothesis localeCompare_antisym :
  forall a b, 0 < localeCompare a b -> localeCompare b a <= 0.
Hypothesis localeCompare_trans :
  forall a b c, localeCompare a b <= 0 -> localeCompare b c <= 0 ->
                localeCompare a c <= 0.

(** C3: for every sequence of records and every filter state, the
    visible entries are in ascending order of display name under
    [localeCompare]: no entry sorts after one that follows it. *)
Theorem visibleEntries_sorted (results : list Doc.t) (levelFilter search : string) :
  StronglySorted (nameLe localeCompare)
                 (visibleEntries localeCompare results levelFilter search).
Proof.
  unfold visibleEntries, visible.
  apply (JsArrayFacts.sort_sorted
           (fun a b => localeCompare (Entry.name a) (Entry.name b))).
  - intros a b. apply localeCompare_antisym.
  - intros a b c. apply localeCompare_trans.
Qed.

End SortedByName.

Lemma visibleEntries_sorted_witness :
  StronglySorted (nameLe JsString.codeUnitCompare)
    (visibleEntries JsString.codeUnitCompare sampleResults "all" "").
Proof.
  apply (visibleEntries_sorted JsString.codeUnitCompare
           JsStringFacts.codeUnitCompare_antisym
           JsStringFacts.codeUnitCompare_trans).
Defined.

Example visibleEntries_sample :
  map entryPair (visibleEntries JsString.codeUnitCompare sampleResults "all" "")
  = [("level1", "Bob"); ("level2", "Zoe Young"); ("level1", "amy Lee")]
  /\ map entryPair (visibleEntries JsString.codeUnitCompare sampleResults "level1" "LE")
     = [("level1", "amy Lee")]
  /\ visibleEntries JsString.codeUnitCompare sampleResults "level3" "" = [].
Proof. repeat split. Qed.

(** C9: the candidate levels of [visible] are exactly the levels present
    in [latestPerStudent] when there are any, and the four fixed levels
    when there are none, whatever the map is.  When no record has a
    level key that names a property of [Object.prototype], the levels
    present are those of the input records, and there are none exactly
    when the input is empty. *)
Theorem levels_candidates (results : list Doc.t) :
  (forall latest : StudentMap,
      (keys latest <> [] -> levels latest = keys latest) /\
      (keys latest = [] ->
       levels latest = ["level1"; "level2"; "level3"; "level4"])) /\
  ((forall r, In r results -> plainKey (lvlOf r)) ->
   let latest := latestPerStudent results in
   (keys latest = [] <-> results = []) /\
   (forall lvl, In lvl (keys latest) <-> exists r, In r results /\ lvlOf r = lvl)).
Proof.
  split.
  - intros latest. split.
    + intros H. unfold levels. destruct (keys latest); [congruence | reflexivity].
    + intros H. unfold levels. now rewrite H.
  - intros Hplain. cbv zeta.
    assert (Hlv : forall lvl, In lvl (keys (latestPerStudent results))
                              <-> exists r, In r results /\ lvlOf r = lvl).
    { intros lvl. rewrite DedupFacts.latestPerStudent_levels. split; [tauto|].
      intros (r & Hr & E). split; [|now exists r].
      rewrite <- E. apply DedupFacts.plainKey_not_proto. now apply Hplain. }
    split; [|exact Hlv]. split.
    + intros H. destruct results as [|r rs]; [reflexivity|].
      assert (Hin : In (lvlOf r) (keys (latestPerStudent (r :: rs)))).
      { apply Hlv. exists r. split; [now left | reflexivity]. }
      rewrite H in Hin. destruct Hin.
    + intros ->. reflexivity.
Qed.

(** C10: for every sequence of records and every filter state, no two
    visible entries have the same (level, display name) pair. *)
Theorem visibleEntries_pairs_unique
    (localeCompare : string -> string -> Z)
    (results : list Doc.t) (levelFilter search : string) :
  NoDup (map entryPair (visibleEntries localeCompare results levelFilter search)).
Proof.
  unfold visibleEntries.
  eapply Permutation_NoDup.
  - symmetry. apply Permutation_map, VisibleFacts.visible_perm.
  - apply VisibleFacts.collect_pairs_NoDup, DedupFacts.latestPerStudent_wellFormed.
Qed.

Lemma StronglySorted_weaken {A : Type} (R S : A -> A -> Prop) (l : list A) :
  (forall a b, R a b -> S a b) -> StronglySorted R l -> StronglySorted S l.
Proof.
  intros HRS. induction 1 as [|x l Hs IH Hx]; constructor; [exact IH|].
  eapply Forall_impl; [|exact Hx]. intros b. apply HRS.
Qed.

Lemma StronglySorted_split {A : Type} (R : A -> A -> Prop) (l1 l2 : list A) :
  StronglySorted R (l1 ++ l2) ->
  forall a b, In a l1 -> In b l2 -> R a b.
Proof.
  induction l1 as [|x l1 IH]; simpl; intros Hs a b Ha Hb; [destruct Ha|].
  inversion Hs as [|? ? Hs' Hx]; subst.
  destruct Ha as [<- | Ha].
  - rewrite Forall_forall in Hx. apply Hx, in_or_app. now right.
  - now apply IH.
Qed.

Lemma scores_sorted (l : list (string * Z)) :
  StronglySorted scoreGe (JsArray.sort (fun a b => snd b - snd a) l).
Proof.
  apply StronglySorted_weaken
    with (R := fun a b : string * Z => snd b - snd a <= 0).
  - unfold scoreGe. intros a b. lia.
  - apply (JsArrayFacts.sort_sorted (fun a b : string * Z => snd b - snd a));
      intros; lia.
Qed.

(** C4: for every scores mapping, [topIntelligences(scores, 3)] returns
    at most 3 labels and no more labels than the mapping has keys; the
    labels are those of entries of the mapping taken in descending order
    of score, and no entry left out scores higher than one taken.  When
    [scores] is absent the result is empty. *)
Theorem topIntelligences_top3 (scores : JsObject.t Z) :
  (List.length (topIntelligences (Some scores) 3) <= 3)%nat /\
  (List.length (topIntelligences (Some scores) 3) <= List.length (keys scores))%nat /\
  (exists picked rest,
      topIntelligences (Some scores) 3 = map (fun kv => labelOf (fst kv)) picked /\
      Permutation (picked ++ rest) scores /\
      StronglySorted scoreGe picked /\
      (forall p q, In p picked -> In q rest -> snd q <= snd p)) /\
  topIntelligences None 3 = [].
Proof.
  set (sorted := JsArray.sort (fun a b => snd b - snd a) (entries scores)).
  assert (Hlen : List.length sorted = List.length (keys scores)).
  { unfold sorted, keys. now rewrite JsArrayFacts.sort_length, length_map. }
  assert (Hsorted : StronglySorted scoreGe sorted) by apply scores_sorted.
  unfold topIntelligences. fold sorted. rewrite length_map.
  destruct (JsArrayFacts.slice0_length 3 sorted) as [H3 Hk]; [lia|].
  split; [exact H3|]. split; [now rewrite <- Hlen|]. split; [|reflexivity].
  unfold JsArray.slice0 in *. set (n := Z.to_nat _) in *.
  exists (firstn n sorted), (skipn n sorted).
  split; [reflexivity|]. split; [|split].
  - rewrite firstn_skipn. unfold sorted.
    rewrite JsArrayFacts.sort_perm. apply JsObjectFacts.entries_perm.
  - now apply JsArrayFacts.firstn_StronglySorted.
  - intros p q Hp Hq.
    apply (StronglySorted_split scoreGe (firstn n sorted) (skipn n sorted));
      [now rewrite firstn_skipn | exact Hp | exact Hq].
Qed.

(** The scenario of the specification: a tie between the first two. *)
Example topIntelligences_tie :
  topIntelligences (Some [("Linguistic", 9); ("Musical", 9); ("Spatial", 3)]) 3
  = map Text ["Linguistic"; "Musical"; "Spatial"].
Proof. reflexivity. Qed.

(** C7: [levelToGrade] is total; it maps level1..level4 to Grade 9..12,
    every other non-empty level to itself, and a missing or empty level
    to "Unknown". *)
Theorem levelToGrade_table :
  levelToGrade (Some "level1") = "Grade 9" /\
  levelToGrade (Some "level2") = "Grade 10" /\
  levelToGrade (Some "level3") = "Grade 11" /\
  levelToGrade (Some "level4") = "Grade 12" /\
  (forall l : string,
      l <> "" -> l <> "level1" -> l <> "level2" -> l <> "level3" -> l <> "level4" ->
      levelToGrade (Some l) = l) /\
  levelToGrade None = "Unknown" /\
  levelToGrade (Some "") = "Unknown".
Proof.
  repeat (split; [reflexivity|]). split; [|split; reflexivity].
  intros l H0 H1 H2 H3 H4. unfold levelToGrade.
  apply JsStringFacts.truthy_true_iff in H0. rewrite H0. simpl.
  apply String.eqb_neq in H1, H2, H3, H4. now rewrite H1, H2, H3, H4.
Qed.

Lemma setProp_length {V : Type} (k : string) (v : V) (o : JsObject.t V) :
  (List.length (setProp k v o) <= S (List.length o))%nat.
Proof.
  induction o as [|[k' v'] o IH]; simpl; [lia|].
  destruct (k' =? k)%string; simpl; lia.
Qed.

Lemma labelOf_unknown (k : string) :
  ~ In k INTELLIGENCE_KEYS -> plainKey k -> labelOf k = Text k.
Proof.
  intros H Hk. unfold labelOf. rewrite DedupFacts.plainKey_get by exact Hk.
  assert (E : getProp k LABELS = None) by now apply JsObjectFacts.getProp_None_iff.
  now rewrite E.
Qed.

(** A key that names a property of [Object.prototype] has the inherited
    value for its label: [LABELS[k]] is truthy. *)
Lemma labelOf_inherited (k : string) :
  In k JsPrototype.KEYS -> labelOf k = Inherited k.
Proof.
  intros H. unfold JsPrototype.KEYS, JsPrototype.METHODS in H. simpl in H.
  repeat (destruct H as [<- | H]; [reflexivity|]). destruct H.
Qed.

(** None of the eight fixed keys names a property of [Object.prototype]:
    [scores[key]] and [LABELS[key]] find own properties or nothing. *)
Lemma INTELLIGENCE_KEYS_plain : Forall plainKey INTELLIGENCE_KEYS.
Proof.
  repeat (apply Forall_cons; [apply DedupFacts.isKey_false_iff; reflexivity|]).
  apply Forall_nil.
Qed.

Lemma barRows_keys (scores : JsObject.t Raw.value) :
  map barKey (barRows scores) = INTELLIGENCE_KEYS.
Proof. reflexivity. Qed.

(** The bar chart reads the eight fixed keys and nothing else. *)
Lemma barRows_ext (s1 s2 : JsObject.t Raw.value) :
  (forall key, In key INTELLIGENCE_KEYS -> getProp key s1 = getProp key s2) ->
  barRows s1 = barRows s2.
Proof.
  intros H. unfold barRows. apply map_ext_in. intros key Hkey.
  now rewrite (H key Hkey).
Qed.

(** A visible entry carries a record of the input, as it was fetched. *)
Lemma visibleEntries_doc (localeCompare : string -> string -> Z)
    (results : list Doc.t) (levelFilter search : string) (e : Entry.t) :
  In e (visibleEntries localeCompare results levelFilter search) ->
  exists r, Entry.doc e = Some r /\ In r results /\
            lvlOf r = Entry.level e /\ nameOf r = Entry.name e.
Proof.
  intros He. apply VisibleFacts.visible_In, VisibleFacts.collect_In in He.
  destruct He as (_ & _ & Hname & _ & Hdoc).
  apply JsObjectFacts.keys_getProp in Hname.
  rewrite <- DedupFacts.retained_studentsOf, <- Hdoc in Hname.
  destruct (Entry.doc e) as [r|] eqn:E; [|congruence].
  exists r. split; [reflexivity|].
  apply DedupFacts.retained_In. now rewrite <- Hdoc.
Qed.

Lemma filter_perm {A : Type} (f : A -> bool) (l l' : list A) :
  Permutation l l' -> Permutation (filter f l) (filter f l').
Proof.
  induction 1 as [|x l l' Hp IH|x y l|l l' l'' H1 IH1 H2 IH2]; simpl.
  - constructor.
  - destruct (f x); [now constructor | exact IH].
  - destruct (f x), (f y); try apply Permutation_refl. apply perm_swap.
  - now transitivity (filter f l').
Qed.

Lemma filter_all_length {A : Type} (f : A -> bool) (l : list A) :
  (forall x, In x l -> f x = true) -> List.length (filter f l) = List.length l.
Proof.
  induction l as [|x l IH]; simpl; intros H; [reflexivity|].
  rewrite (H x) by now left. simpl. f_equal. apply IH. intros y Hy. apply H. now right.
Qed.

Lemma filter_some_length {A : Type} (f : A -> bool) (l : list A) (x : A) :
  In x l -> f x = true -> (1 <= List.length (filter f l))%nat.
Proof.
  intros Hx Hf.
  assert (H : In x (filter f l)) by (apply filter_In; now split).
  destruct (filter f l); [destruct H | simpl; lia].
Qed.

(** An entry with at most two entries scoring at least as much is among
    the three that [topIntelligences] takes. *)
Lemma topIntelligences_takes (scores : JsObject.t Z) (k : string) (v : Z) :
  In (k, v) scores ->
  (List.length (filter (fun kv => (v <=? snd kv)%Z) scores) <= 3)%nat ->
  In (labelOf k) (topIntelligences (Some scores) 3).
Proof.
  intros Hin Hcount. unfold topIntelligences, JsArray.slice0.
  set (sorted := JsArray.sort _ (entries scores)).
  assert (Hperm : Permutation sorted scores).
  { unfold sorted. rewrite JsArrayFacts.sort_perm. apply JsObjectFacts.entries_perm. }
  assert (Hsorted : StronglySorted scoreGe sorted) by apply scores_sorted.
  set (n := Z.to_nat _).
  assert (Hn : n = Nat.min 3 (List.length sorted)).
  { unfold n. destruct (3 <? 0) eqn:E; [discriminate|]. lia. }
  change (labelOf k) with ((fun kv : string * Z => labelOf (fst kv)) (k, v)).
  apply in_map.
  assert (Hk : In (k, v) sorted) by (apply (Permutation_in _ (Permutation_sym Hperm)), Hin).
  rewrite <- (firstn_skipn n sorted) in Hk. apply in_app_or in Hk.
  destruct Hk as [Hk | Hk]; [exact Hk | exfalso].
  assert (Hlen : (n < List.length sorted)%nat).
  { destruct (Nat.le_gt_cases (List.length sorted) n) as [Hle | Hgt]; [|exact Hgt].
    rewrite skipn_all2 in Hk by exact Hle. destruct Hk. }
  assert (Hn3 : n = 3%nat) by lia.
  assert (Hfirst : List.length (filter (fun kv : string * Z => v <=? snd kv)
                                       (firstn n sorted)) = 3%nat).
  { rewrite filter_all_length; [rewrite length_firstn; lia|].
    intros p Hp. apply Z.leb_le.
    apply (StronglySorted_split scoreGe (firstn n sorted) (skipn n sorted)
             ltac:(now rewrite firstn_skipn) p (k, v) Hp Hk). }
  assert (Hrest : (1 <= List.length (filter (fun kv : string * Z => (v <=? snd kv)%Z)
                                            (skipn n sorted)))%nat).
  { apply filter_some_length with (k, v); [exact Hk | apply Z.leb_refl]. }
  assert (Htotal : List.length (filter (fun kv : string * Z => v <=? snd kv) sorted)
                   = List.length (filter (fun kv : string * Z => v <=? snd kv) scores)).
  { apply Permutation_length, filter_perm, Hperm. }
  rewrite <- (firstn_skipn n sorted), filter_app, length_app in Htotal. lia.
Qed.

(** C5, as the code has it: a key of [scores] outside the eight fixed
    keys is ignored by the bar chart (it gets no row and changes no row,
    whatever is stored under it) and stays in the record, which reaches
    the card as it was fetched.  The top labels do not ignore it:
    [topIntelligences] ranks it by its score like any key, so that it is
    listed whenever at most two other entries score as much, and a key
    that names no property of [Object.prototype] is shown under its own
    name. *)
Theorem unknown_score_key_rendering (k : string) :
  ~ In k INTELLIGENCE_KEYS ->
  (forall (stored : JsObject.t Raw.value) (v : Raw.value),
      barRows (setProp k v stored) = barRows stored /\
      ~ In k (map barKey (barRows (setProp k v stored)))) /\
  (plainKey k -> labelOf k = Text k) /\
  (forall (scores : JsObject.t Z) (v : Z),
      In (k, v) scores ->
      (List.length (filter (fun kv => (v <=? snd kv)%Z) scores) <= 3)%nat ->
      In (labelOf k) (topIntelligences (Some scores) 3)) /\
  (forall localeCompare results levelFilter search,
      plainKeys results ->
      Forall (fun e => exists r, Entry.doc e = Some r /\ In r results /\
                                 cardScores e = match Doc.scores r with
                                                | Some s => s
                                                | None => JsObject.empty
                                                end)
             (visibleEntries localeCompare results levelFilter search)).
Proof.
  intros Hk. split; [|split; [|split]].
  - intros stored v. split.
    + apply barRows_ext. intros key Hkey.
      apply JsObjectFacts.getProp_setProp_other. congruence.
    + now rewrite barRows_keys.
  - now apply labelOf_unknown.
  - intros scores v. apply topIntelligences_takes.
  - intros localeCompare results levelFilter search _.
    apply Forall_forall. intros e He.
    destruct (visibleEntries_doc _ _ _ _ _ He) as (r & Hd & Hr & _).
    exists r. split; [exact Hd|]. split; [exact Hr|].
    unfold cardScores. now rewrite Hd.
Qed.

Lemma unknown_score_key_rendering_witness :
  ~ In "Linguistique" INTELLIGENCE_KEYS /\
  barRows (setProp "Linguistique" (Raw.VNum 7) [("Musical", Raw.VNum 4)])
  = barRows [("Musical", Raw.VNum 4)] /\
  labelOf "Linguistique" = Text "Linguistique" /\
  In (Text "Linguistique")
     (topIntelligences
        (Some [("Musical", 4); ("Spatial", 9); ("Linguistique", 7); ("Naturalistic", 8);
               ("Kinesthetic", 2)]) 3).
Proof.
  assert (H : ~ In "Linguistique" INTELLIGENCE_KEYS).
  { simpl. intuition discriminate. }
  assert (Hp : plainKey "Linguistique").
  { apply DedupFacts.isKey_false_iff. reflexivity. }
  split; [exact H|].
  destruct (unknown_score_key_rendering "Linguistique" H)
    as (Hbars & Hlabel & Htop & _).
  split; [apply Hbars|]. split; [now apply Hlabel|].
  rewrite <- (Hlabel Hp). apply (Htop _ 7).
  - simpl. tauto.
  - simpl. lia.
Defined.

(** C5 as stated fails on the top labels: the card of a record whose
    scores use a key outside the eight lists that key first, and the
    label is gone when the key is; the bar chart is the same. *)
Lemma unknown_score_key_counterexample :
  let scores := [("Linguistique", 9); ("Linguistic", 1)] in
  let known := [("Linguistic", 1)] in
  let card s := Entry.mk "level1" "Amy Lee"
                  (Some (Doc.mk "a" (Some "Amy") (Some "Lee") (Some "level1") (Some s) None)) in
  ~ In "Linguistique" INTELLIGENCE_KEYS /\
  cardTop (card scores) = [Text "Linguistique"; Text "Linguistic"] /\
  cardTop (card known) = [Text "Linguistic"] /\
  cardBars (card scores) = cardBars (card known).
Proof.
  cbv zeta. split; [simpl; intuition discriminate|].
  split; [reflexivity|]. split; reflexivity.
Qed.

(** C6, as the code has it, for records whose level keys and display
    names name no property of [Object.prototype].  A record with a
    missing [createdAt] counts as having timestamp 0.  It loses to any
    record of its group whose [createdAt] is a date later than the
    epoch: whenever the group holds such a record, the record retained
    for the group has a [createdAt], and the later record does not
    compare later than it; and such a record arriving when the record
    without a date is the one retained takes its place.  A record whose
    [createdAt] is a date at or before the epoch does not take its
    place. *)
Theorem missing_createdAt_loses (results : list Doc.t) :
  plainKeys results ->
  (forall r, Doc.createdAt r = None -> timeOf r = JsNumber.Finite 0) /\
  (forall later t,
      In later results ->
      Doc.createdAt later = Some (Doc.At t) ->
      0 < t ->
      exists kept,
        retained (lvlOf later) (nameOf later) (latestPerStudent results) = Some kept /\
        Doc.createdAt kept <> None /\
        JsNumber.gt (JsNumber.Finite t) (timeOf kept) = false) /\
  (forall before missing r t,
      results = (before ++ [r])%list ->
      retained (lvlOf r) (nameOf r) (latestPerStudent before) = Some missing ->
      Doc.createdAt missing = None ->
      Doc.createdAt r = Some (Doc.At t) ->
      retained (lvlOf r) (nameOf r) (latestPerStudent results)
      = if 0 <? t then Some r else Some missing).
Proof.
  intros Hplain. split; [|split].
  - intros r Hr. unfold timeOf. now rewrite Hr.
  - intros later t Hin Ht Hpos.
    destruct (Hplain later Hin) as [Hl Hn].
    assert (Hg : In later (group (lvlOf later) (nameOf later) results)).
    { apply DedupFacts.group_In. auto. }
    rewrite (DedupFacts.retained_latestPerStudent _ _ results Hl Hn).
    pose proof (DedupFacts.keepLatest_fold
                  (group (lvlOf later) (nameOf later) results)) as Hfold.
    destruct (fold_left keepLatest (group (lvlOf later) (nameOf later) results) None)
      as [kept|] eqn:E.
    + exists kept. split; [reflexivity|].
      pose proof (DedupFacts.keepLatest_fold_max _ _ _ E Hg) as Hmax.
      assert (Hlt : timeOf later = JsNumber.Finite t) by (unfold timeOf; now rewrite Ht).
      rewrite Hlt in Hmax. split; [|exact Hmax].
      intros Hnone. unfold timeOf in Hmax. rewrite Hnone in Hmax.
      simpl in Hmax. apply Z.ltb_ge in Hmax. lia.
    + rewrite Hfold in Hg. destruct Hg.
  - intros before missing r t -> Hret Hmiss Ht.
    destruct (Hplain r) as [Hl Hn]; [apply in_or_app; right; now left|].
    rewrite (DedupFacts.retained_append _ _ before [r] Hl Hn), Hret.
    unfold group, inGroup. simpl. rewrite !String.eqb_refl. simpl.
    unfold timeOf. now rewrite Ht, Hmiss.
Qed.

Lemma missing_createdAt_loses_witness :
  let missing := Doc.mk "a" (Some "Amy") (Some "Lee") (Some "level1") None None in
  let later := Doc.mk "b" (Some "Amy") (Some "Lee") (Some "level1") None
                      (Some (Doc.At 1700000000000)) in
  let epoch := Doc.mk "c" (Some "Amy") (Some "Lee") (Some "level1") None
                      (Some (Doc.At 0)) in
  retained "level1" "Amy Lee" (latestPerStudent [missing; later]) = Some later /\
  retained "level1" "Amy Lee" (latestPerStudent [missing; epoch]) = Some missing.
Proof.
  cbv zeta. split.
  - exact (proj2 (proj2 (missing_createdAt_loses _
                           (DedupFacts.plainKeysb_spec
                              [ Doc.mk "a" (Some "Amy") (Some "Lee") (Some "level1") None None;
                                Doc.mk "b" (Some "Amy") (Some "Lee") (Some "level1") None
                                       (Some (Doc.At 1700000000000)) ] eq_refl)))
                 [ Doc.mk "a" (Some "Amy") (Some "Lee") (Some "level1") None None ]
                 (Doc.mk "a" (Some "Amy") (Some "Lee") (Some "level1") None None)
                 (Doc.mk "b" (Some "Amy") (Some "Lee") (Some "level1") None
                         (Some (Doc.At 1700000000000)))
                 1700000000000 eq_refl eq_refl eq_refl eq_refl).
  - exact (proj2 (proj2 (missing_createdAt_loses _
                           (DedupFacts.plainKeysb_spec
                              [ Doc.mk "a" (Some "Amy") (Some "Lee") (Some "level1") None None;
                                Doc.mk "c" (Some "Amy") (Some "Lee") (Some "level1") None
                                       (Some (Doc.At 0)) ] eq_refl)))
                 [ Doc.mk "a" (Some "Amy") (Some "Lee") (Some "level1") None None ]
                 (Doc.mk "a" (Some "Amy") (Some "Lee") (Some "level1") None None)
                 (Doc.mk "c" (Some "Amy") (Some "Lee") (Some "level1") None
                         (Some (Doc.At 0)))
                 0 eq_refl eq_refl eq_refl eq_refl).
Defined.

(** C6 as stated fails for a [createdAt] that is not later than the
    epoch: a record dated one day before it, or at it, is present and
    does not displace the record without a date; arriving first, it is
    itself displaced. *)
Lemma missing_createdAt_counterexample :
  let missing := Doc.mk "a" (Some "Amy") (Some "Lee") (Some "level1") None None in
  let before := Doc.mk "b" (Some "Amy") (Some "Lee") (Some "level1") None
                       (Some (Doc.At (-86400000))) in
  let epoch := Doc.mk "c" (Some "Amy") (Some "Lee") (Some "level1") None
                      (Some (Doc.At 0)) in
  Doc.createdAt missing = None /\
  Doc.createdAt before <> None /\
  Doc.createdAt epoch <> None /\
  retained "level1" "Amy Lee" (latestPerStudent [missing; before]) = Some missing /\
  retained "level1" "Amy Lee" (latestPerStudent [before; missing]) = Some missing /\
  retained "level1" "Amy Lee" (latestPerStudent [missing; epoch]) = Some missing.
Proof.
  cbv zeta. split; [reflexivity|]. split; [discriminate|]. split; [discriminate|].
  split; [reflexivity|]. split; reflexivity.
Qed.

(** C8, as the code has it: when the read fails, the error is caught
    where it is raised and logged, torn down or not, and [load]
    completes without throwing.  If the component is still mounted,
    [results] becomes empty and [loading] false.  If it was torn down
    while the read was in flight, neither [results] nor [loading] is
    touched. *)
Theorem load_failure (err : string) (v : View) :
  mounted v = true ->
  (forall teardown e, fst (load teardown (inl err) v) <> Throw e) /\
  (forall teardown,
      consoleErrors (snd (load teardown (inl err) v))
      = (consoleErrors v ++ [("Failed to load results:" ++ " " ++ err)%string])%list) /\
  (let v' := snd (load false (inl err) v) in
   results v' = [] /\ loading v' = false /\ mounted v' = true) /\
  (let v' := snd (load true (inl err) v) in
   results v' = results v /\ loading v' = true /\ mounted v' = false).
Proof.
  intros Hm. destruct v as [m l rs ce]. simpl in Hm. subst m.
  split; [|split; [|split]].
  - intros [|] e; discriminate.
  - intros [|]; reflexivity.
  - cbv zeta. repeat split.
  - cbv zeta. repeat split.
Qed.

Lemma load_failure_witness :
  results (snd (load false (inl "unavailable") initial)) = [] /\
  loading (snd (load false (inl "unavailable") initial)) = false /\
  consoleErrors (snd (load true (inl "unavailable") initial))
  = ["Failed to load results: unavailable"].
Proof.
  destruct (load_failure "unavailable" initial eq_refl)
    as (_ & Hlog & (Hr & Hl & _) & _).
  split; [exact Hr|]. split; [exact Hl|]. exact (Hlog true).
Defined.

(** C8 as stated fails when the component is torn down before the read
    fails: [loading] does not become false. *)
Lemma load_failure_counterexample :
  loading (snd (load true (inl "unavailable") initial)) = true /\
  loading (snd (load true (inl "unavailable") initial)) <> false.
Proof. split; [reflexivity | discriminate]. Qed.

(** When the read succeeds and the component is mounted, the documents
    are stored and [loading] becomes false. *)
Example load_success (docs : list Doc.t) :
  load false (inr docs) initial = (Normal tt, mkView true false docs []).
Proof. reflexivity. Qed.

(* ================================================================== *)
(** ** Further facts: stability of sort, lookups under reordering *)

Module MoreFacts.
Import JsArray JsObjectFacts.

Section Stable.
Context {A : Type}.
Variable comparefn : A -> A -> Z.
Variable P : A -> bool.

Lemma insertSorted_filter_out (x : A) (l : list A) :
  P x = false -> filter P (insertSorted comparefn x l) = filter P l.
Proof.
  intros Hx. induction l as [|y t IH]; simpl.
  - now rewrite Hx.
  - destruct (comparefn x y <=? 0); simpl.
    + now rewrite Hx.
    + now rewrite IH.
Qed.

Hypothesis class_le : forall x y, P x = true -> P y = true -> comparefn x y <= 0.

Lemma insertSorted_filter_in (x : A) (l : list A) :
  P x = true -> filter P (insertSorted comparefn x l) = x :: filter P l.
Proof.
  intros Hx. induction l as [|y t IH]; simpl.
  - now rewrite Hx.
  - destruct (comparefn x y <=? 0) eqn:E; simpl.
    + now rewrite Hx.
    + apply Z.leb_gt in E. destruct (P y) eqn:Hy.
      * specialize (class_le x y Hx Hy). lia.
      * exact IH.
Qed.

(** Elements of a class whose members never compare greater than one
    another keep their relative order. *)
Lemma sort_stable (l : list A) : filter P (sort comparefn l) = filter P l.
Proof.
  induction l as [|x l IH]; simpl; [reflexivity|].
  destruct (P x) eqn:Hx.
  - rewrite insertSorted_filter_in by exact Hx. now rewrite IH.
  - rewrite insertSorted_filter_out by exact Hx. exact IH.
Qed.

End Stable.

Lemma filter_all {A : Type} (P : A -> bool) (l : list A) :
  (forall x, In x l -> P x = true) -> filter P l = l.
Proof.
  induction l as [|x l IH]; simpl; intros H; [reflexivity|].
  rewrite (H x) by now left. f_equal. apply IH. intros y Hy. apply H. now right.
Qed.

Lemma firstn_length_min {A : Type} (n : nat) (l : list A) :
  List.length (firstn n l) = Nat.min n (List.length l).
Proof. apply length_firstn. Qed.

Section Lookup.
Context {V : Type}.

Lemma getProp_In_NoDup (k : string) (v : V) (o : JsObject.t V) :
  wellKeyed o -> In (k, v) o -> JsObject.getProp k o = Some v.
Proof.
  unfold wellKeyed. induction o as [|[k' v'] o IH]; simpl; intros Hnd Hin; [destruct Hin|].
  inversion Hnd as [|? ? Hk Hnd']; subst.
  destruct Hin as [[= -> ->] | Hin].
  - now rewrite String.eqb_refl.
  - destruct (k' =? k)%string eqn:E.
    + apply String.eqb_eq in E. subst k'. exfalso. apply Hk.
      change k with (fst (k, v)). now apply in_map.
    + now apply IH.
Qed.

(** A lookup does not depend on the order of the properties. *)
Lemma getProp_perm (k : string) (o o' : JsObject.t V) :
  wellKeyed o -> Permutation o o' ->
  JsObject.getProp k o' = JsObject.getProp k o.
Proof.
  intros Hwk Hp.
  assert (Hwk' : wellKeyed o').
  { unfold wellKeyed in *. eapply Permutation_NoDup; [|exact Hwk].
    now apply Permutation_map. }
  destruct (JsObject.getProp k o) as [v|] eqn:E.
  - apply getProp_In_NoDup; [exact Hwk'|].
    apply (Permutation_in _ Hp). now apply getProp_Some_In.
  - destruct (JsObject.getProp k o') as [v'|] eqn:E'; [|reflexivity].
    apply getProp_Some_In in E'.
    apply (Permutation_in _ (Permutation_sym Hp)) in E'.
    apply getProp_In_NoDup in E'; [congruence | exact Hwk].
Qed.

Lemma getProp_entries (k : string) (o : JsObject.t V) :
  wellKeyed o -> JsObject.getProp k (JsObject.entries o) = JsObject.getProp k o.
Proof.
  intros Hwk. apply getProp_perm; [exact Hwk|].
  symmetry. apply entries_perm.
Qed.

Lemma getProp_fold_setProp (k : string) (l target : JsObject.t V) :
  wellKeyed l ->
  JsObject.getProp k
    (fold_left (fun o kv => JsObject.setProp (fst kv) (snd kv) o) l target)
  = match JsObject.getProp k l with
    | Some v => Some v
    | None => JsObject.getProp k target
    end.
Proof.
  unfold wellKeyed. revert target.
  induction l as [|[k' v'] l IH]; simpl; intros target Hnd; [reflexivity|].
  inversion Hnd as [|? ? Hk Hnd']; subst.
  rewrite IH by exact Hnd'.
  destruct (k' =? k)%string eqn:E.
  - apply String.eqb_eq in E. subst k'.
    apply getProp_None_iff in Hk. rewrite Hk.
    apply getProp_setProp_same.
  - apply String.eqb_neq in E.
    destruct (JsObject.getProp k l); [reflexivity|].
    now apply getProp_setProp_other.
Qed.

Lemma getProp_spread (k : string) (target source : JsObject.t V) :
  wellKeyed source ->
  JsObject.getProp k (Raw.spread target source)
  = match JsObject.getProp k source with
    | Some v => Some v
    | None => JsObject.getProp k target
    end.
Proof.
  intros Hwk. unfold Raw.spread.
  rewrite getProp_fold_setProp.
  - now rewrite getProp_entries.
  - unfold wellKeyed in *. eapply Permutation_NoDup; [|exact Hwk].
    apply Permutation_map. symmetry. apply entries_perm.
Qed.

End Lookup.
End MoreFacts.

(* ================================================================== *)
(** ** Further properties: the helpers *)

(** X1: in [topIntelligences] ties are broken by enumeration order: the
    result is the labels of the first [n] entries of the ranking, and in
    the ranking the entries of any one score stand in their
    [Object.entries] order; when all scores are equal the ranking is
    [Object.entries] itself. *)
Theorem topIntelligences_ties (scores : JsObject.t Z) (n : Z) :
  let ranking := JsArray.sort byScoreDesc (entries scores) in
  topIntelligences (Some scores) n
  = map (fun kv => labelOf (fst kv)) (JsArray.slice0 n ranking) /\
  (forall s, filter (fun kv => snd kv =? s) ranking
             = filter (fun kv => snd kv =? s) (entries scores)) /\
  (forall s, (forall kv, In kv scores -> snd kv = s) ->
             topIntelligences (Some scores) n
             = map (fun kv => labelOf (fst kv)) (JsArray.slice0 n (entries scores))).
Proof.
  cbv zeta.
  assert (Hst : forall s, filter (fun kv : string * Z => snd kv =? s)
                            (JsArray.sort byScoreDesc (entries scores))
                          = filter (fun kv => snd kv =? s) (entries scores)).
  { intros s. apply MoreFacts.sort_stable.
    intros x y Hx Hy. apply Z.eqb_eq in Hx, Hy. unfold byScoreDesc. lia. }
  split; [reflexivity|]. split; [exact Hst|].
  intros s Hall. unfold topIntelligences. do 2 f_equal.
  change (fun a b : string * Z => snd b - snd a) with byScoreDesc.
  rewrite <- (MoreFacts.filter_all (fun kv => snd kv =? s)
                (JsArray.sort byScoreDesc (entries scores))).
  - rewrite Hst. apply MoreFacts.filter_all.
    intros kv Hkv. apply Z.eqb_eq, Hall.
    apply (Permutation_in _ (JsObjectFacts.entries_perm scores) Hkv).
  - intros kv Hkv. apply Z.eqb_eq, Hall.
    apply JsArrayFacts.sort_In in Hkv.
    apply (Permutation_in _ (JsObjectFacts.entries_perm scores) Hkv).
Qed.

(** X2: for a count [n >= 0], [topIntelligences(scores, n)] returns
    exactly min(n, number of keys) labels, each the label of a key of
    [scores]; when [n] is at least the number of keys, every key is
    listed, once per key. *)
Theorem topIntelligences_count (scores : JsObject.t Z) (n : Z) :
  0 <= n ->
  List.length (topIntelligences (Some scores) n)
  = Nat.min (Z.to_nat n) (List.length (keys scores)) /\
  (forall label, In label (topIntelligences (Some scores) n) ->
                 exists k, In k (keys scores) /\ label = labelOf k) /\
  (Z.of_nat (List.length (keys scores)) <= n ->
   Permutation (topIntelligences (Some scores) n) (map labelOf (keys scores))).
Proof.
  intros Hn. unfold topIntelligences, JsArray.slice0.
  set (ranking := JsArray.sort _ (entries scores)).
  assert (Hlen : List.length ranking = List.length (keys scores)).
  { unfold ranking, keys. now rewrite JsArrayFacts.sort_length, length_map. }
  assert (Hperm : Permutation ranking (entries scores))
    by apply JsArrayFacts.sort_perm.
  destruct (n <? 0) eqn:E; [apply Z.ltb_lt in E; lia|].
  split; [|split].
  - rewrite length_map, length_firstn, Hlen. lia.
  - intros label Hl. apply in_map_iff in Hl. destruct Hl as (kv & <- & Hkv).
    exists (fst kv). split; [|reflexivity].
    unfold keys. apply in_map.
    apply (Permutation_in _ Hperm).
    rewrite <- (firstn_skipn (Z.to_nat (Z.min n (Z.of_nat (List.length ranking)))) ranking).
    apply in_or_app. now left.
  - intros Hall. rewrite firstn_all2 by lia.
    unfold keys. rewrite map_map.
    apply (Permutation_map (fun kv : string * Z => labelOf (fst kv))), Hperm.
Qed.

Lemma topIntelligences_count_witness :
  List.length (topIntelligences (Some [("Musical", 4); ("Spatial", 7)]) 3) = 2%nat /\
  Permutation (topIntelligences (Some [("Musical", 4); ("Spatial", 7)]) 3)
              [Text "Musical"; Text "Spatial"].
Proof.
  destruct (topIntelligences_count [("Musical", 4); ("Spatial", 7)] 3)
    as (Hlen & _ & Hperm); [lia|].
  split; [exact Hlen|]. apply Hperm. simpl. lia.
Defined.

(** X3: [normalizeDoc] copies every stored field other than [createdAt]
    unchanged and adds the document id as [id]; a stored field named
    [id] takes the place of the document id. *)
Theorem normalizeDoc_fields (doc : Raw.snapshot) (o : JsObject.t Raw.value) (k : string) :
  wellKeyed (Raw.data doc) ->
  normalizeDoc doc = inr o ->
  k <> "createdAt" ->
  getProp k o
  = match getProp k (Raw.data doc) with
    | Some v => Some v
    | None => if (k =? "id")%string then Some (Raw.VStr (Raw.id doc)) else None
    end.
Proof.
  intros Hwk Hn Hk.
  assert (Hsp : forall k', getProp k' (Raw.spread [("id", Raw.VStr (Raw.id doc))] (Raw.data doc))
                = match getProp k' (Raw.data doc) with
                  | Some v => Some v
                  | None => if ("id" =? k')%string then Some (Raw.VStr (Raw.id doc)) else None
                  end).
  { intros k'. now rewrite MoreFacts.getProp_spread. }
  assert (Hgoal : getProp k (Raw.spread [("id", Raw.VStr (Raw.id doc))] (Raw.data doc))
                  = match getProp k (Raw.data doc) with
                    | Some v => Some v
                    | None => if (k =? "id")%string then Some (Raw.VStr (Raw.id doc)) else None
                    end).
  { rewrite Hsp. now rewrite (String.eqb_sym k "id"). }
  unfold normalizeDoc in Hn. cbv zeta in Hn.
  destruct (getProp "createdAt" _) as [c|]; [|injection Hn as <-; exact Hgoal].
  destruct (Raw.truthy c); [|injection Hn as <-; exact Hgoal].
  destruct c as [| | | | |d|fields]; try (injection Hn as <-; exact Hgoal).
  - injection Hn as <-.
    rewrite JsObjectFacts.getProp_setProp_other by congruence. exact Hgoal.
  - destruct (getProp "toDate" fields) as [f|]; [destruct (Raw.truthy f)|];
      try discriminate; injection Hn as <-; exact Hgoal.
Qed.

Lemma normalizeDoc_fields_witness :
  let doc := Raw.mkSnapshot "doc-1"
               [("firstName", Raw.VStr "Amy"); ("id", Raw.VStr "stored");
                ("createdAt", Raw.VTimestamp 1700000000000)] in
  exists o, normalizeDoc doc = inr o /\
            getProp "id" o = Some (Raw.VStr "stored") /\
            getProp "firstName" o = Some (Raw.VStr "Amy").
Proof.
  cbv zeta. eexists. split; [reflexivity|].
  split.
  - apply (normalizeDoc_fields
             (Raw.mkSnapshot "doc-1"
                [("firstName", Raw.VStr "Amy"); ("id", Raw.VStr "stored");
                 ("createdAt", Raw.VTimestamp 1700000000000)]));
      [ repeat (constructor; [simpl; intuition discriminate|]); constructor
      | reflexivity | discriminate ].
  - reflexivity.
Defined.

(** X4: what [normalizeDoc] does to [createdAt]: a store timestamp is
    replaced by the [Date] of its [toDate()]; a map holding a truthy
    [toDate] field makes the call throw; anything else, a missing or
    falsy value included, is left as it is.  A document that is
    normalised never keeps a store timestamp in [createdAt]. *)
Theorem normalizeDoc_createdAt (doc : Raw.snapshot) :
  wellKeyed (Raw.data doc) ->
  match getProp "createdAt" (Raw.data doc) with
  | Some (Raw.VTimestamp d) =>
      exists o, normalizeDoc doc = inr o /\ getProp "createdAt" o = Some (Raw.VDate d)
  | Some (Raw.VMap fields) =>
      match getProp "toDate" fields with
      | Some f => if Raw.truthy f
                  then exists err, normalizeDoc doc = inl err
                  else exists o, normalizeDoc doc = inr o /\
                                 getProp "createdAt" o = Some (Raw.VMap fields)
      | None => exists o, normalizeDoc doc = inr o /\
                          getProp "createdAt" o = Some (Raw.VMap fields)
      end
  | other => exists o, normalizeDoc doc = inr o /\ getProp "createdAt" o = other
  end.
Proof.
  intros Hwk. unfold normalizeDoc. cbv zeta.
  set (data := Raw.spread _ _).
  assert (Hc : getProp "createdAt" data = getProp "createdAt" (Raw.data doc)).
  { unfold data. rewrite MoreFacts.getProp_spread by exact Hwk.
    now destruct (getProp "createdAt" (Raw.data doc)). }
  rewrite Hc.
  destruct (getProp "createdAt" (Raw.data doc)) as [c|] eqn:E.
  - destruct c as [|b|n|s|t|d|fields]; simpl.
    + now exists data.
    + exists data. now destruct b.
    + exists data. now destruct (negb (n =? 0)).
    + exists data. now destruct (JsString.truthy s).
    + now exists data.
    + eexists. split; [reflexivity|]. apply JsObjectFacts.getProp_setProp_same.
    + destruct (getProp "toDate" fields) as [f|]; [destruct (Raw.truthy f)|].
      * now eexists.
      * now exists data.
      * now exists data.
  - now exists data.
Qed.

Lemma normalizeDoc_createdAt_witness :
  exists o,
    normalizeDoc (Raw.mkSnapshot "doc-1" [("createdAt", Raw.VTimestamp 1700000000000)])
    = inr o /\
    getProp "createdAt" o = Some (Raw.VDate 1700000000000).
Proof.
  apply (normalizeDoc_createdAt
           (Raw.mkSnapshot "doc-1" [("createdAt", Raw.VTimestamp 1700000000000)])).
  repeat (constructor; [simpl; intuition discriminate|]). constructor.
Defined.

(** X5: when the read succeeds, [load] stores the documents and ends
    with [loading] false if the component is still mounted, and leaves
    [results] and [loading] as they were (loading still true) if it was
    torn down meanwhile; nothing is logged.  Whatever the outcome of the
    read, [load] never throws, and a mounted component always ends with
    [loading] false. *)
Theorem load_outcomes (docs : list Doc.t) (v : View) :
  mounted v = true ->
  load false (inr docs) v = (Normal tt, mkView true false docs (consoleErrors v)) /\
  load true (inr docs) v = (Return, mkView false true (results v) (consoleErrors v)) /\
  (forall fetched, loading (snd (load false fetched v)) = false) /\
  (forall teardown fetched e, fst (load teardown fetched v) <> Throw e).
Proof.
  intros Hm. destruct v as [m l rs ce]. simpl in Hm. subst m.
  split; [reflexivity|]. split; [reflexivity|]. split.
  - intros [err|ds]; reflexivity.
  - intros [|] [err|ds] e; discriminate.
Qed.

Lemma load_outcomes_witness :
  load false (inr sampleResults) initial = (Normal tt, mkView true false sampleResults []) /\
  load true (inr sampleResults) initial = (Return, mkView false true [] []).
Proof.
  destruct (load_outcomes sampleResults initial eq_refl) as (H1 & H2 & _).
  split; [exact H1 | exact H2].
Defined.



(** The bar chart on scores that are not all numbers. *)
Example barRows_typeof :
  map barVal (barRows [("Musical", Raw.VNum 9); ("Spatial", Raw.VStr "4");
                       ("Logical", Raw.VNull); ("Rythme", Raw.VNum 5)])
  = [0; 0; 0; 0; 9; 0; 0; 0] /\
  map barPct (barRows [("Musical", Raw.VNum 9); ("Spatial", Raw.VNum 4)])
  = [0; 0; 44; 0; 100; 0; 0; 0].
Proof. split; reflexivity. Qed.

(* ================================================================== *)
(** ** Further properties: the visible entries *)

Lemma levels_of_key (m : StudentMap) (lvl : string) :
  In lvl (keys m) -> In lvl (levels m).
Proof.
  intros H. unfold levels. destruct (keys m) as [|k ks]; [destruct H | exact H].
Qed.

(** Membership in the visible entries. *)
Lemma visibleEntries_iff
    (localeCompare : string -> string -> Z)
    (results : list Doc.t) (levelFilter search : string) (e : Entry.t) :
  In e (visibleEntries localeCompare results levelFilter search)
  <-> (Entry.doc e <> None /\
       Entry.doc e = retained (Entry.level e) (Entry.name e) (latestPerStudent results)) /\
      (levelFilter = "all" \/ Entry.level e = levelFilter) /\
      (search = "" \/ matchesSearch search (Entry.name e)).
Proof.
  unfold visibleEntries.
  rewrite VisibleFacts.visible_In, VisibleFacts.collect_In.
  set (m := latestPerStudent results).
  split.
  - intros (_ & Hf & Hname & Hs & Hdoc). split; [|tauto].
    split; [|exact Hdoc].
    rewrite Hdoc, DedupFacts.retained_studentsOf.
    now apply JsObjectFacts.keys_getProp.
  - intros ((Hsome & Hdoc) & Hf & Hs).
    rewrite Hdoc in Hsome.
    split; [|split; [exact Hf|split; [|split; [exact Hs | exact Hdoc]]]].
    + apply levels_of_key. now apply DedupFacts.retained_level with (Entry.name e).
    + apply JsObjectFacts.keys_getProp.
      now rewrite <- DedupFacts.retained_studentsOf.
Qed.

Lemma nil_of_no_element {A : Type} (l : list A) : (forall x, ~ In x l) -> l = [].
Proof.
  destruct l as [|x l]; [reflexivity|]. intros H. exfalso. apply (H x). now left.
Qed.

Lemma retained_group_nil (lvl name : string) (rs : list Doc.t) :
  group lvl name rs = [] -> retained lvl name (latestPerStudent rs) = None.
Proof.
  intros Hg. destruct (retained lvl name (latestPerStudent rs)) as [r|] eqn:E;
    [|reflexivity].
  apply DedupFacts.retained_In, DedupFacts.group_In in E. rewrite Hg in E. destruct E.
Qed.

Lemma group_plain (lvl name : string) (rs : list Doc.t) :
  plainKeys rs -> group lvl name rs <> [] -> plainKey lvl /\ plainKey name.
Proof.
  intros Hplain Hg. destruct (group lvl name rs) as [|r g] eqn:E; [congruence|].
  assert (Hr : In r (group lvl name rs)) by (rewrite E; now left).
  apply DedupFacts.group_In in Hr. destruct Hr as (Hr & <- & <-).
  now apply Hplain.
Qed.

(** On records with plain keys the retained record of any pair is the
    fold of [keepLatest] over the group, in the order of the input. *)
Lemma retained_plain (lvl name : string) (rs : list Doc.t) :
  plainKeys rs ->
  retained lvl name (latestPerStudent rs) = fold_left keepLatest (group lvl name rs) None.
Proof.
  intros Hplain. destruct (group lvl name rs) as [|r g] eqn:E.
  - now apply retained_group_nil.
  - destruct (group_plain lvl name rs Hplain) as [Hl Hn]; [congruence|].
    now rewrite DedupFacts.retained_latestPerStudent, E.
Qed.

Lemma retained_append_plain (lvl name : string) (rs more : list Doc.t) :
  plainKeys (rs ++ more) ->
  retained lvl name (latestPerStudent (rs ++ more))
  = fold_left keepLatest (group lvl name more)
              (retained lvl name (latestPerStudent rs)).
Proof.
  intros Hplain.
  pose proof (proj1 (DedupFacts.plainKeys_app rs more) Hplain) as [Hrs Hmore].
  rewrite (retained_plain lvl name (rs ++ more) Hplain), (retained_plain lvl name rs Hrs).
  unfold group. now rewrite filter_app, fold_left_app.
Qed.

Lemma keepLatest_fold_from (l : list Doc.t) (r : Doc.t) :
  exists r', fold_left keepLatest l (Some r) = Some r' /\
             (r' = r \/ (In r' l /\ JsNumber.gt (timeOf r') (timeOf r) = true)).
Proof.
  revert r. induction l as [|x l IH]; intros r; simpl.
  - exists r. split; [reflexivity | now left].
  - destruct (JsNumber.gt (timeOf x) (timeOf r)) eqn:E.
    + destruct (IH x) as (r' & Hf & Hin).
      exists r'. split; [exact Hf|]. right.
      destruct Hin as [-> | [Hin Hgt]]; [split; [now left | exact E]|].
      split; [now right|]. now apply DedupFacts.gt_trans with (timeOf x).
    + destruct (IH r) as (r' & Hf & Hin).
      exists r'. split; [exact Hf|]. tauto.
Qed.

(** X7: for records with plain keys, the visible entries are exactly the
    retained records that pass both filters: an entry is listed if and
    only if its record is the one [latestPerStudent] holds under the
    entry's level and name, the level filter is ["all"] or the entry's
    level, and the search text is empty or occurs case-insensitively in
    the name. *)
Theorem visibleEntries_exact
    (localeCompare : string -> string -> Z)
    (results : list Doc.t) (levelFilter search : string) (e : Entry.t) :
  plainKeys results ->
  (In e (visibleEntries localeCompare results levelFilter search)
   <-> (exists r,
           Entry.doc e = Some r /\
           retained (Entry.level e) (Entry.name e) (latestPerStudent results) = Some r) /\
       (levelFilter = "all" \/ Entry.level e = levelFilter) /\
       (search = "" \/ matchesSearch search (Entry.name e))).
Proof.
  intros _. rewrite visibleEntries_iff. split.
  - intros ((Hsome & Hdoc) & Hf & Hs). split; [|tauto].
    destruct (Entry.doc e) as [r|]; [|congruence].
    exists r. split; [reflexivity | now symmetry].
  - intros ((r & Hd & Hret) & Hf & Hs). split; [|tauto].
    rewrite Hd, Hret. split; [discriminate | reflexivity].
Qed.

Lemma visibleEntries_exact_witness :
  In (Entry.mk "level1" "Bob" (Some (Doc.mk "r3" (Some "Bob") None (Some "level1") None None)))
     (visibleEntries JsString.codeUnitCompare sampleResults "level1" "bo").
Proof.
  apply (visibleEntries_exact JsString.codeUnitCompare sampleResults "level1" "bo" _
           (DedupFacts.plainKeysb_spec sampleResults eq_refl)).
  split; [|split].
  - eexists. split; reflexivity.
  - now right.
  - right. now exists "", "b".
Defined.

(** X8: for records with plain keys, no student is lost: every fetched
    record whose level and name pass the filters has a visible entry
    under that level and name, and the fetched record does not compare
    later than the record shown there. *)
Theorem visibleEntries_no_student_lost
    (localeCompare : string -> string -> Z)
    (results : list Doc.t) (levelFilter search : string) (r : Doc.t) :
  plainKeys results ->
  In r results ->
  levelFilter = "all" \/ lvlOf r = levelFilter ->
  search = "" \/ matchesSearch search (nameOf r) ->
  exists kept,
    In (Entry.mk (lvlOf r) (nameOf r) (Some kept))
       (visibleEntries localeCompare results levelFilter search) /\
    JsNumber.gt (timeOf r) (timeOf kept) = false.
Proof.
  intros Hplain Hr Hf Hs.
  assert (Hg : In r (group (lvlOf r) (nameOf r) results))
    by (apply DedupFacts.group_In; auto).
  pose proof (retained_plain (lvlOf r) (nameOf r) results Hplain) as Hfold.
  destruct (retained (lvlOf r) (nameOf r) (latestPerStudent results)) as [kept|] eqn:E.
  - exists kept. split.
    + apply visibleEntries_iff. simpl. rewrite E.
      split; [split; [discriminate | reflexivity]|]. tauto.
    + symmetry in Hfold. now apply (DedupFacts.keepLatest_fold_max _ _ _ Hfold).
  - pose proof (DedupFacts.keepLatest_fold (group (lvlOf r) (nameOf r) results)) as H.
    rewrite <- Hfold in H. rewrite H in Hg. destruct Hg.
Qed.

Lemma visibleEntries_no_student_lost_witness :
  exists kept,
    In (Entry.mk "level2" "Zoe Young" (Some kept))
       (visibleEntries JsString.codeUnitCompare sampleResults "level2" "zoe") /\
    JsNumber.gt (JsNumber.Finite 1700000000000) (timeOf kept) = false.
Proof.
  apply (visibleEntries_no_student_lost JsString.codeUnitCompare sampleResults
           "level2" "zoe"
           (Doc.mk "r1" (Some "Zoe") (Some "Young") (Some "level2") None
                   (Some (Doc.At 1700000000000)))).
  - exact (DedupFacts.plainKeysb_spec sampleResults eq_refl).
  - now left.
  - now right.
  - right. now exists "", " young".
Defined.

Lemma visible_pairs_In
    (localeCompare : string -> string -> Z)
    (results : list Doc.t) (levelFilter search : string) (lvl name : string) :
  In (lvl, name) (map entryPair (visibleEntries localeCompare results levelFilter search))
  <-> retained lvl name (latestPerStudent results) <> None /\
      (levelFilter = "all" \/ lvl = levelFilter) /\
      (search = "" \/ matchesSearch search name).
Proof.
  rewrite in_map_iff. split.
  - intros (e & [= <- <-] & He). apply visibleEntries_iff in He.
    destruct He as ((Hs & Hd) & Hf & Hq). rewrite <- Hd. tauto.
  - intros (Hret & Hf & Hq).
    exists (Entry.mk lvl name (retained lvl name (latestPerStudent results))).
    split; [reflexivity|]. apply visibleEntries_iff. simpl. tauto.
Qed.

(** X9: for records with plain keys, with no filter the visible entries
    are the retained pairs, one entry per pair, and the retained pairs
    are the (level, name) pairs of the fetched records, so the count
    shown is the number of distinct (level, name) pairs of the fetched
    records; it never exceeds the number of fetched records, and no
    choice of filters shows more entries than no filter does. *)
Theorem visibleEntries_count
    (localeCompare : string -> string -> Z) (results : list Doc.t) :
  plainKeys results ->
  let all := visibleEntries localeCompare results "all" "" in
  Permutation (map entryPair all) (pairsOf (latestPerStudent results)) /\
  (forall lvl name,
      In (lvl, name) (map entryPair all)
      <-> exists r, In r results /\ lvlOf r = lvl /\ nameOf r = name) /\
  (List.length all <= List.length results)%nat /\
  (forall levelFilter search,
      (List.length (visibleEntries localeCompare results levelFilter search)
       <= List.length all)%nat).
Proof.
  intros Hplain. cbv zeta.
  assert (Hnd : forall f s, NoDup (map entryPair (visibleEntries localeCompare results f s))).
  { intros f s. unfold visibleEntries. eapply Permutation_NoDup.
    - symmetry. apply Permutation_map, VisibleFacts.visible_perm.
    - apply VisibleFacts.collect_pairs_NoDup, DedupFacts.latestPerStudent_wellFormed. }
  assert (Hpairs : NoDup (pairsOf (latestPerStudent results))).
  { apply PairFacts.pairsOf_NoDup, DedupFacts.latestPerStudent_wellFormed. }
  split; [|split; [|split]].
  - apply NoDup_Permutation; [apply Hnd | exact Hpairs|].
    intros [lvl name]. rewrite visible_pairs_In, PairFacts.pairsOf_In. tauto.
  - intros lvl name. rewrite visible_pairs_In. split.
    + intros (H & _).
      destruct (retained lvl name (latestPerStudent results)) as [r|] eqn:E; [|congruence].
      exists r. now apply DedupFacts.retained_In.
    + intros (r & Hr & Hl & Hn). split; [|split; now left].
      rewrite (retained_plain lvl name results Hplain).
      pose proof (DedupFacts.keepLatest_fold (group lvl name results)) as H.
      destruct (fold_left keepLatest (group lvl name results) None); [discriminate|].
      assert (Hg : In r (group lvl name results)) by (apply DedupFacts.group_In; auto).
      rewrite H in Hg. destruct Hg.
  - rewrite <- (length_map entryPair),
            <- (length_map (fun r => (lvlOf r, nameOf r)) results).
    apply NoDup_incl_length; [apply Hnd|].
    intros [lvl name] H. apply visible_pairs_In in H. destruct H as (H & _).
    destruct (retained lvl name (latestPerStudent results)) as [r|] eqn:E; [|congruence].
    apply DedupFacts.retained_In in E. destruct E as (Hr & <- & <-).
    now apply (in_map (fun r => (lvlOf r, nameOf r))).
  - intros f s.
    rewrite <- (length_map entryPair), <- (length_map entryPair (visibleEntries _ _ "all" "")).
    apply NoDup_incl_length; [apply Hnd|].
    intros [lvl name] H. apply visible_pairs_In in H.
    apply visible_pairs_In. split; [tauto|]. split; now left.
Qed.

Lemma visibleEntries_count_witness :
  (List.length (visibleEntries JsString.codeUnitCompare sampleResults "all" "")
   <= List.length sampleResults)%nat /\
  (List.length (visibleEntries JsString.codeUnitCompare sampleResults "level1" "lee")
   <= List.length (visibleEntries JsString.codeUnitCompare sampleResults "all" ""))%nat.
Proof.
  pose proof (visibleEntries_count JsString.codeUnitCompare sampleResults
                (DedupFacts.plainKeysb_spec sampleResults eq_refl)) as H.
  cbv zeta in H. destruct H as (_ & _ & Hle & Hall).
  split; [exact Hle | apply Hall].
Defined.

(** X10: for records with plain keys, nothing is visible when nothing
    was fetched, whatever the filters are (the four fallback levels hold
    no student), and nothing is visible under a level filter no fetched
    record has. *)
Theorem visibleEntries_empty
    (localeCompare : string -> string -> Z)
    (results : list Doc.t) (levelFilter search : string) :
  plainKeys results ->
  results = [] \/
  (levelFilter <> "all" /\ forall r, In r results -> lvlOf r <> levelFilter) ->
  visibleEntries localeCompare results levelFilter search = [].
Proof.
  intros _ H.
  destruct (visibleEntries localeCompare results levelFilter search) as [|e es] eqn:E;
    [reflexivity|].
  exfalso.
  assert (He : In e (visibleEntries localeCompare results levelFilter search))
    by (rewrite E; now left).
  apply visibleEntries_iff in He. destruct He as ((Hs & Hd) & Hf & _).
  destruct (Entry.doc e) as [r|] eqn:Er; [|congruence].
  symmetry in Hd. apply DedupFacts.retained_In in Hd. destruct Hd as (Hr & Hl & _).
  destruct H as [-> | (Hna & Hno)]; [destruct Hr|].
  destruct Hf as [Hf | Hf]; [contradiction|].
  apply (Hno r Hr). congruence.
Qed.

Lemma visibleEntries_empty_witness :
  visibleEntries JsString.codeUnitCompare sampleResults "level3" "" = [] /\
  visibleEntries JsString.codeUnitCompare [] "all" "" = [].
Proof.
  split.
  - apply visibleEntries_empty;
      [exact (DedupFacts.plainKeysb_spec sampleResults eq_refl)|].
    right. split; [discriminate|].
    intros r Hr. simpl in Hr.
    repeat (destruct Hr as [<- | Hr]; [discriminate|]). destruct Hr.
  - apply visibleEntries_empty; [exact (DedupFacts.plainKeysb_spec [] eq_refl)|].
    now left.
Defined.

Lemma lowerUnit_idempotent (c : ascii) :
  JsString.lowerUnit (JsString.lowerUnit c) = JsString.lowerUnit c.
Proof.
  destruct c as [[] [] [] [] [] [] [] []]; reflexivity.
Qed.

Lemma toLowerCase_idempotent (s : string) :
  JsString.toLowerCase (JsString.toLowerCase s) = JsString.toLowerCase s.
Proof.
  induction s as [|c s IH]; simpl; [reflexivity|].
  now rewrite lowerUnit_idempotent, IH.
Qed.

Lemma toLowerCase_truthy (s : string) :
  JsString.truthy (JsString.toLowerCase s) = JsString.truthy s.
Proof. now destruct s. Qed.

Lemma collect_same_lower (m : StudentMap) (levelFilter s s' : string) :
  JsString.toLowerCase s = JsString.toLowerCase s' ->
  collect m levelFilter s = collect m levelFilter s'.
Proof.
  intros H. unfold collect.
  assert (Ht : JsString.truthy s = JsString.truthy s').
  { now rewrite <- (toLowerCase_truthy s), H, toLowerCase_truthy. }
  now rewrite H, Ht.
Qed.

(** X11: the search ignores the case of the search text: two search
    texts with the same lower-case form give the same visible entries,
    and so does a search text and its lower-case form. *)
Theorem visibleEntries_search_case
    (localeCompare : string -> string -> Z)
    (results : list Doc.t) (levelFilter search search' : string) :
  JsString.toLowerCase search = JsString.toLowerCase search' ->
  visibleEntries localeCompare results levelFilter search
  = visibleEntries localeCompare results levelFilter search' /\
  visibleEntries localeCompare results levelFilter (JsString.toLowerCase search)
  = visibleEntries localeCompare results levelFilter search.
Proof.
  intros H. unfold visibleEntries, visible. split.
  - now rewrite (collect_same_lower _ _ _ _ H).
  - rewrite (collect_same_lower _ levelFilter (JsString.toLowerCase search) search);
      [reflexivity | apply toLowerCase_idempotent].
Qed.

Lemma visibleEntries_search_case_witness :
  visibleEntries JsString.codeUnitCompare sampleResults "all" "LEE"
  = visibleEntries JsString.codeUnitCompare sampleResults "all" "Lee".
Proof.
  exact (proj1 (visibleEntries_search_case JsString.codeUnitCompare sampleResults
                  "all" "LEE" "Lee" eq_refl)).
Defined.

(** X12: sorting by name is stable: when [localeCompare] never puts a
    name after itself, the entries of one display name (the same
    student name in several levels) stay in the order in which they
    were collected, that is in the enumeration order of their levels. *)
Theorem visibleEntries_same_name_order
    (localeCompare : string -> string -> Z)
    (results : list Doc.t) (levelFilter search name : string) :
  (forall s, localeCompare s s <= 0) ->
  filter (fun e => (Entry.name e =? name)%string)
         (visibleEntries localeCompare results levelFilter search)
  = filter (fun e => (Entry.name e =? name)%string)
           (collect (latestPerStudent results) levelFilter search).
Proof.
  intros Hrefl. unfold visibleEntries, visible.
  apply MoreFacts.sort_stable.
  intros x y Hx Hy. apply String.eqb_eq in Hx, Hy.
  rewrite Hx, Hy. apply Hrefl.
Qed.

Lemma codeUnitCompare_refl (s : string) : JsString.codeUnitCompare s s <= 0.
Proof.
  unfold JsString.codeUnitCompare.
  destruct (String_as_OT.compare_spec s s) as [E|L|G]; try lia;
    exfalso; eapply (@irreflexivity _ _ (@StrictOrder_Irreflexive _ _ String_as_OT.lt_strorder));
    eassumption.
Qed.

Lemma visibleEntries_same_name_order_witness :
  let twins := [ Doc.mk "a" (Some "Amy") (Some "Lee") (Some "level2") None None;
                 Doc.mk "b" (Some "Amy") (Some "Lee") (Some "level1") None None ] in
  map Entry.level
      (filter (fun e => (Entry.name e =? "Amy Lee")%string)
              (visibleEntries JsString.codeUnitCompare twins "all" ""))
  = ["level2"; "level1"].
Proof.
  cbv zeta.
  rewrite (visibleEntries_same_name_order JsString.codeUnitCompare _ "all" "" "Amy Lee"
             codeUnitCompare_refl).
  reflexivity.
Defined.

(** X13: for records with plain keys, the grade shown on a card is
    never the "Unknown" of a missing level: the level of a visible entry
    is the level key of a fetched record and is never empty, so
    [levelToGrade] maps it to "Grade 9" .. "Grade 12" or to itself, and a
    record without a level is shown under "unknown". *)
Theorem cardGrade_of_visible
    (localeCompare : string -> string -> Z)
    (results : list Doc.t) (levelFilter search : string) :
  plainKeys results ->
  Forall (fun e =>
            Entry.level e <> "" /\
            (exists r, In r results /\ Entry.level e = lvlOf r /\
                       (Doc.level r = None -> cardGrade e = "unknown")) /\
            cardGrade e
            = if (Entry.level e =? "level1")%string then "Grade 9"
              else if (Entry.level e =? "level2")%string then "Grade 10"
              else if (Entry.level e =? "level3")%string then "Grade 11"
              else if (Entry.level e =? "level4")%string then "Grade 12"
              else Entry.level e)
         (visibleEntries localeCompare results levelFilter search).
Proof.
  intros _. apply Forall_forall. intros e He.
  destruct (visibleEntries_doc _ _ _ _ _ He) as (r & _ & Hr & Hl & _).
  assert (Hne : JsString.truthy (Entry.level e) = true).
  { rewrite <- Hl. unfold lvlOf, JsString.orElse.
    destruct (Doc.level r) as [l|]; [|reflexivity].
    destruct (JsString.truthy l) eqn:E; [exact E | reflexivity]. }
  split; [now apply JsStringFacts.truthy_true_iff|]. split.
  - exists r. split; [exact Hr|]. split; [now symmetry|].
    intros Hnone. unfold cardGrade. rewrite <- Hl. unfold lvlOf. now rewrite Hnone.
  - unfold cardGrade, levelToGrade. now rewrite Hne.
Qed.

Lemma cardGrade_of_visible_witness :
  Forall (fun e => Entry.level e <> "" /\ exists r, In r sampleResults /\ Entry.level e = lvlOf r)
         (visibleEntries JsString.codeUnitCompare sampleResults "all" "").
Proof.
  eapply Forall_impl;
    [|exact (cardGrade_of_visible JsString.codeUnitCompare sampleResults "all" ""
               (DedupFacts.plainKeysb_spec sampleResults eq_refl))].
  intros e (Hne & (r & Hr & Hl & _) & _). split; [exact Hne|]. now exists r.
Defined.

Lemma no_hyphen_tail (c : ascii) (s : string) :
  JsString.includes (String c s) "-" = false ->
  c <> "-"%char /\ JsString.includes s "-" = false.
Proof.
  cbn [JsString.includes JsString.startsWith]. intros H.
  apply orb_false_iff in H. destruct H as [H1 H2]. split; [|exact H2].
  intros ->. discriminate.
Qed.

Lemma cardKey_injective (l1 n1 l2 n2 : string) :
  JsString.includes l1 "-" = false ->
  JsString.includes l2 "-" = false ->
  (l1 ++ "-" ++ n1 = l2 ++ "-" ++ n2)%string ->
  l1 = l2 /\ n1 = n2.
Proof.
  revert l2. induction l1 as [|c1 l1 IH]; intros [|c2 l2] H1 H2 E; simpl in E.
  - injection E as E. now split.
  - injection E as Ec E. apply no_hyphen_tail in H2. destruct H2 as [H2 _].
    now subst c2.
  - injection E as Ec E. apply no_hyphen_tail in H1. destruct H1 as [H1 _].
    now subst c1.
  - injection E as Ec E. apply no_hyphen_tail in H1, H2.
    destruct (IH l2 (proj2 H1) (proj2 H2) E) as [-> ->]. now subst.
Qed.

(** X14: the React keys of the cards are pairwise distinct whenever no
    fetched record has a hyphen in its level key (level1..level4 and
    "unknown" have none). *)
Theorem cardKey_unique
    (localeCompare : string -> string -> Z)
    (results : list Doc.t) (levelFilter search : string) :
  (forall r, In r results -> JsString.includes (lvlOf r) "-" = false) ->
  NoDup (map cardKey (visibleEntries localeCompare results levelFilter search)).
Proof.
  intros Hno.
  set (vis := visibleEntries localeCompare results levelFilter search).
  assert (Hmap : map cardKey vis
                 = map (fun p : string * string => (fst p ++ "-" ++ snd p)%string)
                       (map entryPair vis)).
  { rewrite map_map. reflexivity. }
  rewrite Hmap. apply NoDup_map_NoDup_ForallPairs.
  - intros [l1 n1] [l2 n2] Hp1 Hp2 E. simpl in E.
    assert (Hl : forall l n, In (l, n) (map entryPair vis) ->
                             JsString.includes l "-" = false).
    { intros l n Hp. apply in_map_iff in Hp. destruct Hp as (e & [= <- <-] & He).
      destruct (visibleEntries_doc _ _ _ _ _ He) as (r & _ & Hr & <- & _).
      now apply Hno. }
    destruct (cardKey_injective l1 n1 l2 n2 (Hl _ _ Hp1) (Hl _ _ Hp2) E) as [-> ->].
    reflexivity.
  - unfold vis, visibleEntries. eapply Permutation_NoDup.
    + symmetry. apply Permutation_map, VisibleFacts.visible_perm.
    + apply VisibleFacts.collect_pairs_NoDup, DedupFacts.latestPerStudent_wellFormed.
Qed.

Lemma cardKey_unique_witness :
  NoDup (map cardKey (visibleEntries JsString.codeUnitCompare sampleResults "all" "")).
Proof.
  apply cardKey_unique. intros r Hr. simpl in Hr.
  repeat (destruct Hr as [<- | Hr]; [reflexivity|]). destruct Hr.
Defined.

(** Without that condition two cards can share a key. *)
Example cardKey_collision :
  let rs := [ Doc.mk "a" (Some "c") None (Some "a-b") None None;
              Doc.mk "b" (Some "b-c") None (Some "a") None None ] in
  map cardKey (visibleEntries JsString.codeUnitCompare rs "all" "")
  = ["a-b-c"; "a-b-c"].
Proof. reflexivity. Qed.

Lemma lengthText_zero : lengthText 0 = "0".
Proof. reflexivity. Qed.

(** X15: after a failed read on a mounted component the page shows
    "0 students" and the "No students found" line, whatever the filters
    are.  In general that line shows exactly when loading is over and
    no entry is visible, and while loading the count reads
    "Loading...". *)
Theorem page_after_failed_load
    (localeCompare : string -> string -> Z)
    (err : string) (v : View) (levelFilter search : string) :
  mounted v = true ->
  (let v' := snd (load false (inl err) v) in
   let shown := visibleEntries localeCompare (results v') levelFilter search in
   countText (loading v') shown = "0 students" /\
   showsNoStudents (loading v') shown = true) /\
  (forall isLoading shown,
      showsNoStudents isLoading shown = true <-> isLoading = false /\ shown = []) /\
  (forall shown, countText true shown = "Loading...").
Proof.
  intros Hm. destruct v as [m l rs ce]. simpl in Hm. subst m.
  split; [|split].
  - cbv zeta.
    assert (Hres : results (snd (load false (inl err) (mkView true l rs ce))) = [])
      by reflexivity.
    assert (Hload : loading (snd (load false (inl err) (mkView true l rs ce))) = false)
      by reflexivity.
    rewrite Hres, Hload.
    assert (Hvis : visibleEntries localeCompare [] levelFilter search = []).
    { destruct (visibleEntries localeCompare [] levelFilter search) as [|e es] eqn:E;
        [reflexivity|].
      assert (He : In e (visibleEntries localeCompare [] levelFilter search))
        by (rewrite E; now left).
      destruct (visibleEntries_doc _ _ _ _ _ He) as (r & _ & [] & _). }
    rewrite Hvis. split; reflexivity.
  - intros isLoading shown. unfold showsNoStudents.
    rewrite andb_true_iff, negb_true_iff, Nat.eqb_eq, length_zero_iff_nil. tauto.
  - reflexivity.
Qed.

Lemma page_after_failed_load_witness :
  countText (loading (snd (load false (inl "unavailable") initial)))
            (visibleEntries JsString.codeUnitCompare
               (results (snd (load false (inl "unavailable") initial))) "level2" "amy")
  = "0 students".
Proof.
  exact (proj1 (proj1 (page_after_failed_load JsString.codeUnitCompare
                         "unavailable" initial "level2" "amy" eq_refl))).
Defined.

(* ================================================================== *)
(** ** Further properties: latestPerStudent *)

Lemma filter_StronglySorted {A : Type} (R : A -> A -> Prop) (f : A -> bool) (l : list A) :
  StronglySorted R l -> StronglySorted R (filter f l).
Proof.
  induction 1 as [|x l Hs IH Hx]; simpl; [constructor|].
  destruct (f x); [|exact IH]. constructor; [exact IH|].
  rewrite Forall_forall in Hx |- *. intros y Hy.
  apply filter_In in Hy. now apply Hx.
Qed.

(** X16: for records with plain keys whose [createdAt], where present,
    is a date, [latestPerStudent] does not depend on the order of the
    fetched records when no two records of one group carry the same
    timestamp: any reordering of the input retains the same record for
    every (level, name) pair, and the same set of pairs. *)
Theorem latestPerStudent_order_independent (results results' : list Doc.t) :
  plainKeys results ->
  (forall r, In r results -> Doc.createdAt r <> Some Doc.Unparseable) ->
  Permutation results results' ->
  (forall a b, In a results -> In b results ->
               lvlOf a = lvlOf b -> nameOf a = nameOf b ->
               timeOf a = timeOf b -> a = b) ->
  (forall lvl name,
      retained lvl name (latestPerStudent results')
      = retained lvl name (latestPerStudent results)) /\
  Permutation (pairsOf (latestPerStudent results'))
              (pairsOf (latestPerStudent results)).
Proof.
  intros Hplain Hdated Hp Hdistinct.
  assert (Hplain' : plainKeys results').
  { intros r Hr. apply Hplain. apply (Permutation_in _ (Permutation_sym Hp) Hr). }
  assert (Hfinite : forall r, In r results -> exists t, timeOf r = JsNumber.Finite t).
  { intros r Hr. specialize (Hdated r Hr). unfold timeOf.
    destruct (Doc.createdAt r) as [[t|]|]; [now exists t | congruence | now exists 0]. }
  assert (Hret : forall lvl name,
             retained lvl name (latestPerStudent results')
             = retained lvl name (latestPerStudent results)).
  { intros lvl name.
    assert (Hg : Permutation (group lvl name results) (group lvl name results'))
      by now apply filter_perm.
    rewrite (retained_plain lvl name results' Hplain'),
            (retained_plain lvl name results Hplain).
    pose proof (DedupFacts.keepLatest_fold (group lvl name results)) as H.
    pose proof (DedupFacts.keepLatest_fold (group lvl name results')) as H'.
    destruct (fold_left keepLatest (group lvl name results) None) as [r|] eqn:E;
      destruct (fold_left keepLatest (group lvl name results') None) as [r'|] eqn:E'.
    - f_equal.
      assert (Hr : In r (group lvl name results)).
      { destruct H as (pre & post & -> & _). apply in_or_app. right. now left. }
      assert (Hr' : In r' (group lvl name results')).
      { destruct H' as (pre & post & -> & _). apply in_or_app. right. now left. }
      apply (Permutation_in _ (Permutation_sym Hg)) in Hr'.
      pose proof (DedupFacts.keepLatest_fold_max _ _ _ E Hr') as H1.
      pose proof (DedupFacts.keepLatest_fold_max _ _ _ E'
                    (Permutation_in _ Hg Hr)) as H2.
      apply DedupFacts.group_In in Hr, Hr'.
      destruct Hr as (Hr & Hl & Hn). destruct Hr' as (Hr' & Hl' & Hn').
      destruct (Hfinite r Hr) as (t & Ht). destruct (Hfinite r' Hr') as (t' & Ht').
      apply Hdistinct; try assumption; try congruence.
      rewrite Ht, Ht' in *. simpl in H1, H2.
      apply Z.ltb_ge in H1, H2. f_equal. lia.
    - rewrite H' in Hg. apply Permutation_sym, Permutation_nil in Hg.
      destruct H as (pre & post & Hl & _). rewrite Hl in Hg.
      now destruct pre.
    - rewrite H in Hg. apply Permutation_nil in Hg.
      destruct H' as (pre & post & Hl & _). rewrite Hl in Hg.
      now destruct pre.
    - reflexivity. }
  split; [exact Hret|].
  apply NoDup_Permutation.
  - apply PairFacts.pairsOf_NoDup, DedupFacts.latestPerStudent_wellFormed.
  - apply PairFacts.pairsOf_NoDup, DedupFacts.latestPerStudent_wellFormed.
  - intros [lvl name]. rewrite !PairFacts.pairsOf_In, Hret. tauto.
Qed.

Lemma latestPerStudent_order_independent_witness :
  let a := Doc.mk "a" (Some "Amy") (Some "Lee") (Some "level1") None
                  (Some (Doc.At 86400000)) in
  let b := Doc.mk "b" (Some "Amy") (Some "Lee") (Some "level1") None
                  (Some (Doc.At 172800000)) in
  retained "level1" "Amy Lee" (latestPerStudent [b; a])
  = retained "level1" "Amy Lee" (latestPerStudent [a; b]).
Proof.
  cbv zeta.
  refine (proj1 (latestPerStudent_order_independent
                   [ Doc.mk "a" (Some "Amy") (Some "Lee") (Some "level1") None
                            (Some (Doc.At 86400000));
                     Doc.mk "b" (Some "Amy") (Some "Lee") (Some "level1") None
                            (Some (Doc.At 172800000)) ]
                   _
                   (DedupFacts.plainKeysb_spec
                      [ Doc.mk "a" (Some "Amy") (Some "Lee") (Some "level1") None
                               (Some (Doc.At 86400000));
                        Doc.mk "b" (Some "Amy") (Some "Lee") (Some "level1") None
                               (Some (Doc.At 172800000)) ] eq_refl)
                   _ (perm_swap _ _ []) _)
                "level1" "Amy Lee").
  - intros x Hx. simpl in Hx. destruct Hx as [<- | [<- | []]]; discriminate.
  - intros x y Hx Hy _ _ Ht. simpl in Hx, Hy.
    destruct Hx as [<- | [<- | []]]; destruct Hy as [<- | [<- | []]];
      (reflexivity || discriminate Ht).
Defined.

(** Without distinct timestamps the order matters: of two records of one
    group with the same timestamp the first one fetched is retained; and
    so it does when a [createdAt] is not a date. *)
Example latestPerStudent_order_matters :
  let a := Doc.mk "a" (Some "Amy") (Some "Lee") (Some "level1") None
                  (Some (Doc.At 86400000)) in
  let b := Doc.mk "b" (Some "Amy") (Some "Lee") (Some "level1") None
                  (Some (Doc.At 86400000)) in
  let c := Doc.mk "c" (Some "Amy") (Some "Lee") (Some "level1") None
                  (Some Doc.Unparseable) in
  let d := Doc.mk "d" (Some "Amy") (Some "Lee") (Some "level1") None
                  (Some (Doc.At 172800000)) in
  retained "level1" "Amy Lee" (latestPerStudent [a; b]) = Some a /\
  retained "level1" "Amy Lee" (latestPerStudent [b; a]) = Some b /\
  retained "level1" "Amy Lee" (latestPerStudent [c; d]) = Some c /\
  retained "level1" "Amy Lee" (latestPerStudent [d; c]) = Some d.
Proof. cbv zeta. split; [|split; [|split]]; reflexivity. Qed.

(** X17: for records with plain keys, on input in the order the query
    asks for, newest first (no record compares later than one before
    it), the record retained for a group is the first record of the
    group. *)
Theorem latestPerStudent_newest_first (results : list Doc.t) (lvl name : string) :
  plainKeys results ->
  StronglySorted (fun a b => JsNumber.gt (timeOf b) (timeOf a) = false) results ->
  retained lvl name (latestPerStudent results) = hd_error (group lvl name results).
Proof.
  intros Hplain Hs. rewrite (retained_plain lvl name results Hplain).
  assert (Hsg : StronglySorted (fun a b => JsNumber.gt (timeOf b) (timeOf a) = false)
                               (group lvl name results))
    by now apply filter_StronglySorted.
  destruct (group lvl name results) as [|p l]; [reflexivity|].
  simpl. destruct (keepLatest_fold_from l p) as (r' & Hf & Hin).
  rewrite Hf. destruct Hin as [-> | [Hin Hgt]]; [reflexivity|].
  exfalso. inversion Hsg as [|? ? _ Hall]; subst.
  rewrite Forall_forall in Hall. specialize (Hall r' Hin). congruence.
Qed.

Lemma latestPerStudent_newest_first_witness :
  let newer := Doc.mk "b" (Some "Amy") (Some "Lee") (Some "level1") None
                      (Some (Doc.At 172800000)) in
  let older := Doc.mk "a" (Some "Amy") (Some "Lee") (Some "level1") None
                      (Some (Doc.At 86400000)) in
  retained "level1" "Amy Lee" (latestPerStudent [newer; older]) = Some newer.
Proof.
  cbv zeta.
  apply (latestPerStudent_newest_first
           [ Doc.mk "b" (Some "Amy") (Some "Lee") (Some "level1") None
                    (Some (Doc.At 172800000));
             Doc.mk "a" (Some "Amy") (Some "Lee") (Some "level1") None
                    (Some (Doc.At 86400000)) ]
           "level1" "Amy Lee").
  - apply DedupFacts.plainKeysb_spec. reflexivity.
  - apply SSorted_cons.
    + apply SSorted_cons; [apply SSorted_nil | apply Forall_nil].
    + apply Forall_cons; [reflexivity | apply Forall_nil].
Defined.

(** X18: for records with plain keys, fetching more records continues
    the deduplication: the record retained for a pair after
    [results ++ more] is what the records of [more] in that group do to
    the record retained after [results].  A pair once retained is never
    dropped, and its record is only ever replaced by a record of [more]
    that compares strictly later. *)
Theorem latestPerStudent_append (results more : list Doc.t) (lvl name : string) :
  plainKeys (results ++ more) ->
  retained lvl name (latestPerStudent (results ++ more))
  = fold_left keepLatest (group lvl name more)
              (retained lvl name (latestPerStudent results)) /\
  (forall r, retained lvl name (latestPerStudent results) = Some r ->
             exists r', retained lvl name (latestPerStudent (results ++ more)) = Some r' /\
                        (r' = r \/
                         (In r' more /\ JsNumber.gt (timeOf r') (timeOf r) = true))).
Proof.
  intros Hplain.
  pose proof (retained_append_plain lvl name results more Hplain) as Hcomp.
  split; [exact Hcomp|].
  intros r Hr. rewrite Hcomp, Hr.
  destruct (keepLatest_fold_from (group lvl name more) r) as (r' & Hf & Hin).
  exists r'. split; [exact Hf|].
  destruct Hin as [-> | [Hin Hlt]]; [now left | right].
  split; [|exact Hlt]. now apply DedupFacts.group_In in Hin.
Qed.

Lemma latestPerStudent_append_witness :
  let later := Doc.mk "r5" (Some "Zoe") (Some "Young") (Some "level2") None
                      (Some (Doc.At 1700000300000)) in
  retained "level2" "Zoe Young" (latestPerStudent (sampleResults ++ [later])) = Some later.
Proof.
  cbv zeta.
  exact (proj1 (latestPerStudent_append sampleResults
                  [ Doc.mk "r5" (Some "Zoe") (Some "Young") (Some "level2") None
                           (Some (Doc.At 1700000300000)) ]
                  "level2" "Zoe Young"
                  (DedupFacts.plainKeysb_spec
                     (sampleResults
                      ++ [ Doc.mk "r5" (Some "Zoe") (Some "Young") (Some "level2") None
                                  (Some (Doc.At 1700000300000)) ])%list eq_refl))).
Defined.

Lemma group_docsOf_pair
    (localeCompare : string -> string -> Z) (results : list Doc.t)
    (entries : list Entry.t) (lvl name : string) (r : Doc.t) :
  incl entries (visibleEntries localeCompare results "all" "") ->
  In r (group lvl name (docsOf entries)) ->
  In (lvl, name) (map entryPair entries).
Proof.
  intros Hincl Hr. apply DedupFacts.group_In in Hr. destruct Hr as (Hr & Hl & Hn).
  unfold docsOf in Hr. apply in_flat_map in Hr. destruct Hr as (e & He & Hd).
  destruct (visibleEntries_doc _ _ _ _ _ (Hincl e He)) as (r0 & Hd0 & _ & Hl0 & Hn0).
  rewrite Hd0 in Hd. destruct Hd as [<- | []].
  apply in_map_iff. exists e. split; [|exact He].
  unfold entryPair. congruence.
Qed.

(** X19: for records with plain keys, deduplication is idempotent:
    running [latestPerStudent] on the records the unfiltered cards show
    retains, for every (level, name) pair, the record it retained from
    the fetched records. *)
Theorem latestPerStudent_idempotent
    (localeCompare : string -> string -> Z) (results : list Doc.t)
    (lvl name : string) :
  plainKeys results ->
  retained lvl name
    (latestPerStudent (docsOf (visibleEntries localeCompare results "all" "")))
  = retained lvl name (latestPerStudent results).
Proof.
  intros Hplain.
  set (vis := visibleEntries localeCompare results "all" "").
  assert (Hplain' : plainKeys (docsOf vis)).
  { intros r Hr. unfold docsOf in Hr. apply in_flat_map in Hr.
    destruct Hr as (e & He & Hd).
    destruct (visibleEntries_doc _ _ _ _ _ He) as (r0 & Hd0 & Hr0 & _).
    rewrite Hd0 in Hd. destruct Hd as [<- | []]. now apply Hplain. }
  assert (Hnd : NoDup (map entryPair vis)).
  { unfold vis, visibleEntries. eapply Permutation_NoDup.
    - symmetry. apply Permutation_map, VisibleFacts.visible_perm.
    - apply VisibleFacts.collect_pairs_NoDup, DedupFacts.latestPerStudent_wellFormed. }
  rewrite (retained_plain lvl name (docsOf vis) Hplain').
  destruct (retained lvl name (latestPerStudent results)) as [r|] eqn:E.
  - assert (He : In (Entry.mk lvl name (Some r)) vis).
    { apply visibleEntries_iff. simpl. rewrite E.
      split; [split; [discriminate | reflexivity]|]. split; now left. }
    apply in_split in He. destruct He as (l1 & l2 & Hvis).
    assert (H1 : group lvl name (docsOf l1) = []).
    { apply nil_of_no_element. intros x Hx.
      apply (group_docsOf_pair localeCompare results) in Hx.
      - rewrite Hvis, map_app in Hnd. simpl in Hnd.
        apply NoDup_remove_2 in Hnd. apply Hnd, in_or_app. now left.
      - fold vis. rewrite Hvis. intros e He. apply in_or_app. now left. }
    assert (H2 : group lvl name (docsOf l2) = []).
    { apply nil_of_no_element. intros x Hx.
      apply (group_docsOf_pair localeCompare results) in Hx.
      - rewrite Hvis, map_app in Hnd. simpl in Hnd.
        apply NoDup_remove_2 in Hnd. apply Hnd, in_or_app. now right.
      - fold vis. rewrite Hvis. intros e He. apply in_or_app. right. now right. }
    assert (Hin : inGroup lvl name r = true).
    { apply DedupFacts.retained_In in E. destruct E as (_ & <- & <-).
      unfold inGroup. now rewrite !String.eqb_refl. }
    rewrite Hvis. unfold docsOf. rewrite flat_map_app. simpl.
    fold (docsOf l1). fold (docsOf l2).
    unfold group. rewrite filter_app. simpl. rewrite Hin.
    fold (group lvl name (docsOf l1)). fold (group lvl name (docsOf l2)).
    now rewrite H1, H2.
  - assert (H0 : group lvl name (docsOf vis) = []).
    { apply nil_of_no_element. intros x Hx.
      apply (group_docsOf_pair localeCompare results) in Hx;
        [|fold vis; apply incl_refl].
      apply visible_pairs_In in Hx. tauto. }
    now rewrite H0.
Qed.

Lemma latestPerStudent_idempotent_witness :
  retained "level2" "Zoe Young"
    (latestPerStudent
       (docsOf (visibleEntries JsString.codeUnitCompare sampleResults "all" "")))
  = retained "level2" "Zoe Young" (latestPerStudent sampleResults).
Proof.
  exact (latestPerStudent_idempotent JsString.codeUnitCompare sampleResults
           "level2" "Zoe Young" (DedupFacts.plainKeysb_spec sampleResults eq_refl)).
Defined.

Lemma trimEnd_head (c : ascii) (t : string) :
  JsString.isWhiteSpace c = false ->
  JsString.trimEnd (String c t) = String c (JsString.trimEnd t).
Proof.
  intros Hc. simpl. rewrite Hc. now destruct (JsString.trimEnd t).
Qed.

Lemma trimStart_shape (s : string) :
  startsWithSpace (JsString.trimStart s) = false.
Proof.
  induction s as [|c s IH]; simpl; [reflexivity|].
  destruct (JsString.isWhiteSpace c) eqn:E; [exact IH | simpl; exact E].
Qed.

Lemma trimEnd_shape (s : string) : endsWithSpace (JsString.trimEnd s) = false.
Proof.
  induction s as [|c s IH]; [reflexivity|].
  cbn [JsString.trimEnd].
  destruct (JsString.trimEnd s) as [|a t] eqn:E.
  - destruct (JsString.isWhiteSpace c) eqn:Hc; simpl; [reflexivity | exact Hc].
  - exact IH.
Qed.

Lemma trim_shape (s : string) :
  startsWithSpace (JsString.trim s) = false /\
  endsWithSpace (JsString.trim s) = false.
Proof.
  unfold JsString.trim. split; [|apply trimEnd_shape].
  pose proof (trimStart_shape s) as H.
  destruct (JsString.trimStart s) as [|c t]; [reflexivity|].
  simpl in H. rewrite (trimEnd_head c t H). exact H.
Qed.

(** X20: the keys of a group are well shaped: the level key of a record
    is never empty, and its display name is never empty and neither
    begins nor ends with white space; the display name is "(no name)"
    exactly when nothing but white space is left of the two names. *)
Theorem group_keys_shape (r : Doc.t) :
  lvlOf r <> "" /\
  nameOf r <> "" /\
  startsWithSpace (nameOf r) = false /\
  endsWithSpace (nameOf r) = false /\
  (JsString.trim (JsString.orElse (Doc.firstName r) "" ++ " "
                  ++ JsString.orElse (Doc.lastName r) "")%string = ""
   -> nameOf r = "(no name)").
Proof.
  set (full := JsString.trim _).
  assert (Hname : nameOf r = if JsString.truthy full then full else "(no name)")
    by reflexivity.
  destruct (trim_shape (JsString.orElse (Doc.firstName r) "" ++ " "
                        ++ JsString.orElse (Doc.lastName r) "")%string) as [Hs He].
  fold full in Hs, He.
  split; [|split; [|split; [|split]]].
  - unfold lvlOf, JsString.orElse. destruct (Doc.level r) as [l|]; [|discriminate].
    destruct (JsString.truthy l) eqn:E; [|discriminate].
    now apply JsStringFacts.truthy_true_iff.
  - rewrite Hname. destruct (JsString.truthy full) eqn:E; [|discriminate].
    now apply JsStringFacts.truthy_true_iff.
  - rewrite Hname. now destruct (JsString.truthy full).
  - rewrite Hname. now destruct (JsString.truthy full).
  - intros H0. rewrite Hname, H0. reflexivity.
Qed.
